(** * Sales optimisation pipeline

    A shallow embedding of [src/sales-optimization.py]: the [SalesOptimizer]
    class with its loader, cleaner ([clean_data]), aggregator
    ([analyze_sales_trends]) and reporter ([generate_visualizations],
    [generate_report]).

    Modelling choices.
    - A DataFrame is a list of rows; a Series indexed by labels is an
      association list in index order.
    - Numeric float64 columns are exact rationals in canonical form ([Qc]), so
      that value equality of rows is Leibniz equality; the [units] column is an
      integer column ([Z]).
    - A raised Python exception is the [Raise] constructor of [result].
    - The instance ([self.data], [self.summary]) and the file system are
      threaded explicitly through the methods that touch them.
    - Text and chart rendering done by the formatting and plotting libraries is
      kept abstract in the [Renderer] class; rendering itself never raises.
    - NaN is a missing value ([None]): the quantile of an empty column or the
      segment of a store without label. *)

From Stdlib Require Import ZArith QArith Qcanon Qround Lia Lqa.
From stdpp Require Import base list gmap strings numbers sorting.

Local Open Scope Z_scope.

(** ** Exceptions *)

Inductive exn : Set :=
  | ConnectionError
  | ParserError
  | ValueError
  | KeyError
  | FileNotFoundError.

Inductive result (A : Type) : Type :=
  | Ok (a : A)
  | Raise (e : exn).
Arguments Ok {A} a.
Arguments Raise {A} e.

Global Instance result_ret : MRet result := λ A a, Ok a.
Global Instance result_bind : MBind result := λ A B k m,
  match m with
  | Ok a => k a
  | Raise e => Raise e
  end.

Global Instance exn_eq_dec : EqDecision exn.
Proof. solve_decision. Defined.

(** ** Frame primitives (the pandas operations the script calls) *)

Module Frame.

Section Rows.
Context {A : Type} `{EqDecision A}.

(** [DataFrame.drop_duplicates()] with its defaults (all columns,
    [keep='first']): a row is dropped when an identical row was seen
    before it. *)
Fixpoint drop_duplicates_from (seen l : list A) : list A :=
  match l with
  | [] => []
  | x :: l' =>
      if decide (x ∈ seen) then drop_duplicates_from seen l'
      else x :: drop_duplicates_from (x :: seen) l'
  end.

Definition drop_duplicates (l : list A) : list A :=
  drop_duplicates_from [] l.

(** The rows of [l] that are not preceded by an identical row, in the
    order of [l]: position [i] is kept when [l !! i] does not occur in
    [take i l]. *)
Definition first_occurrences (l : list A) : list A :=
  omap (λ p : nat * A, if decide (p.2 ∈ take p.1 l) then None else Some p.2)
       (imap pair l).
End Rows.

Section GroupBy.
Context {A K : Type} `{EqDecision K}.
Variable leb : K → K → bool.
Variable key : A → option K.

(** Insertion of a group key into the ascending list of distinct keys. *)
Fixpoint insert_key (k : K) (ks : list K) : list K :=
  match ks with
  | [] => [k]
  | k' :: ks' =>
      if decide (k = k') then ks
      else if leb k k' then k :: ks
      else k' :: insert_key k ks'
  end.

(** The group keys of [DataFrame.groupby(col)] ([sort=True],
    [dropna=True]): the distinct non-missing values, ascending. *)
Definition group_keys (l : list A) : list K :=
  foldr insert_key [] (omap key l).

(** [groupby]: one group per key, each holding its rows in frame order. *)
Definition groupby (l : list A) : list (K * list A) :=
  (λ k, (k, filter (λ r, key r = Some k) l)) <$> group_keys l.
End GroupBy.

Definition sumZ (l : list Z) : Z := foldr Z.add 0 l.
Definition sumQc (l : list Qc) : Qc := foldr Qcplus (Q2Qc 0) l.

(** [Series.mean()] of a non-empty column. *)
Definition mean (l : list Qc) : Qc :=
  (sumQc l / Qc_of_Z (Z.of_nat (length l)))%Qc.

(** Rounding to the nearest integer, ties to even ([numpy.rint]). *)
Definition rint (q : Qc) : Z :=
  let f := Qfloor q in
  let r := (q - Qc_of_Z f)%Qc in
  if decide (r < Q2Qc (1 # 2))%Qc then f
  else if decide (Q2Qc (1 # 2) < r)%Qc then f + 1
  else if Z.even f then f else f + 1.

(** [.round(2)]. *)
Definition round2 (q : Qc) : Qc :=
  (Qc_of_Z (rint (q * Qc_of_Z 100)) / Qc_of_Z 100)%Qc.

(** [Series.quantile(q)] with linear interpolation; [None] is NaN, the
  quantile of an empty column. *)
Definition quantile (xs : list Qc) (q : Qc) : option Qc :=
  let v := merge_sort Qcle xs in
  let pos := (Qc_of_Z (Z.of_nat (length v) - 1) * q)%Qc in
  let lo := Z.to_nat (Qfloor pos) in
  let frac := (pos - Qc_of_Z (Qfloor pos))%Qc in
  a ← v !! lo;
  let b := default a (v !! S lo) in
  Some (a + (b - a) * frac)%Qc.

(** [numpy.linspace(0, 1, 4)]. *)
Definition linspace3 : list Qc :=
  [Q2Qc 0; Q2Qc (1 # 3); Q2Qc (2 # 3); Q2Qc 1].

(** [Index.searchsorted(x, side='left')] on ascending bin edges: the number
  of leading edges strictly below [x]. A NaN edge is below nothing. *)
Fixpoint searchsorted (bins : list (option Qc)) (x : Qc) : nat :=
  match bins with
  | Some b :: bins' =>
      if decide (b < x)%Qc then S (searchsorted bins' x) else O
  | _ => O
  end.

(** The bin number of [x] in [_bins_to_cuts] with [include_lowest=True]:
  the lowest edge itself falls in bin 1. *)
Definition bin_id (bins : list (option Qc)) (x : Qc) : nat :=
  if decide (head bins = Some (Some x)) then 1%nat else searchsorted bins x.

(** The label of [x]: missing (NaN) when [x] lies outside all bins. *)
Definition cut_label {L : Type} (labels : list L)
    (bins : list (option Qc)) (x : Qc) : option L :=
  let i := bin_id bins x in
  if decide (i = O ∨ i = length bins) then None else labels !! pred i.

(** [pd.qcut(x, q=3, labels=labels)] on a Series [x] given as
  (index label, value) pairs; duplicate bin edges raise [ValueError]. *)
Definition qcut {I L : Type} (x : list (I * Qc)) (labels : list L)
    : result (list (I * option L)) :=
  let bins := quantile x.*2 <$> linspace3 in
  if decide (NoDup bins)
  then Ok ((λ p : I * Qc, (p.1, cut_label labels bins p.2)) <$> x)
  else Raise ValueError.

(** [Series.idxmax()]: the label of the first maximal value;
  [ValueError] on an empty Series. *)
Fixpoint idxmax_from {I : Type} (best : I * Qc) (s : list (I * Qc)) : I :=
  match s with
  | [] => best.1
  | p :: s' =>
      if decide (best.2 < p.2)%Qc then idxmax_from p s'
      else idxmax_from best s'
  end.

Definition idxmax {I : Type} (s : list (I * Qc)) : result I :=
  match s with
  | [] => Raise ValueError
  | p :: s' => Ok (idxmax_from p s')
  end.

(** [frame.loc[label, col]] on a frame with unique index labels;
  [KeyError] when the label is absent. *)
Definition loc {R V : Type} (label : R → Z) (col : R → V)
    (k : Z) (rows : list R) : result V :=
  match list_find (λ r, label r = k) rows with
  | Some (_, r) => Ok (col r)
  | None => Raise KeyError
  end.

End Frame.

(** ** Data model *)

(** The segment labels passed to [pd.qcut]. *)
Inductive Tier : Set := Low | Medium | High.

Global Instance Tier_eq_dec : EqDecision Tier.
Proof. solve_decision. Defined.

(** One parsed CSV row. [date] is the [week] column (YYYYMMDD) parsed by
    [pd.to_datetime], a point on the time axis; the two columns determine
    each other and are kept as one field. *)
Record RawRecord : Set := {
  date : Z;
  store : Z;
  price : Qc;
  base_price : Qc;
  units : Z;
  featured : Z;
}.

Global Instance RawRecord_eq_dec : EqDecision RawRecord.
Proof. solve_decision. Defined.

(** A row of [self.data] after [clean_data]: the raw columns plus the three
    columns the Cleaner adds. A missing [customer_segment] is NaN. *)
Record CleanRecord : Set := {
  raw : RawRecord;
  revenue : Qc;
  profit : Qc;
  customer_segment : option Tier;
}.

Global Instance CleanRecord_eq_dec : EqDecision CleanRecord.
Proof. solve_decision. Defined.

(** Rows of the three aggregates. *)
Record WeeklyRow : Set := {
  weekly_date : Z;
  weekly_revenue : Qc;
  weekly_units : Z;
  weekly_profit : Qc;
}.

Record SegmentRow : Set := {
  segment_label : Tier;
  segment_revenue : Qc;
  segment_units : Z;
  segment_profit : Qc;
}.

Record PromoRow : Set := {
  promo_flag : Z;
  promo_units : Qc;
  promo_revenue : Qc;
  promo_profit : Qc;
}.

Record Summary : Set := {
  weekly_sales : list WeeklyRow;
  segment_analysis : list SegmentRow;
  promo_analysis : list PromoRow;
}.

(** The instance: [self.data] and [self.summary]. *)
Record SalesOptimizer : Set := {
  data : list CleanRecord;
  summary : option Summary;
}.

(** The part of the file system the script writes to. *)
Record FileSystem : Type := {
  dirs : gset string;
  files : gmap string string;
}.

(** What [requests.get] followed by [pd.read_csv] and [pd.to_datetime]
    yields: no response, an unparsable body, or the parsed rows. *)
Inductive Response : Set :=
  | Unreachable
  | Malformed
  | Csv (rows : list RawRecord).

(** Formatting and plotting done by library code. *)
Class Renderer : Type := {
  today : string;
  fmt_money : Qc → string;
  fmt_count : Z → string;
  fmt_fixed2 : Qc → string;
  segment_to_string : list SegmentRow → string;
  promo_to_string : list PromoRow → string;
  lineplot : list (Z * Qc) → string;
  barplot_segment : list (Tier * Qc) → string;
  barplot_promo : list (Z * Qc) → string;
}.

(** ** The Cleaner *)

Definition labels : list Tier := [Low; Medium; High].

(** [self.data.groupby('store')['units'].sum()]. *)
Definition customer_frequency (rows : list RawRecord) : list (Z * Z) :=
  (λ g : Z * list RawRecord, (g.1, Frame.sumZ (units <$> g.2)))
    <$> Frame.groupby Z.leb (λ r, Some (store r)) rows.

(** [pd.qcut(customer_frequency, q=3, labels=['Low', 'Medium', 'High'])]. *)
Definition store_segments (rows : list RawRecord)
    : result (list (Z * option Tier)) :=
  Frame.qcut (prod_map id Qc_of_Z <$> customer_frequency rows) labels.

(** [self.data['store'].map(d)] for one row: a store absent from the
    dictionary maps to NaN. *)
Definition map_store (d : gmap Z (option Tier)) (s : Z) : option Tier :=
  mjoin (d !! s).

Definition add_metrics (d : gmap Z (option Tier)) (r : RawRecord)
    : CleanRecord :=
  let revenue := (price r * Qc_of_Z (units r))%Qc in
  let profit := (revenue - Qc_of_Z (units r) * base_price r)%Qc in
  {| raw := r; revenue := revenue; profit := profit;
     customer_segment := map_store d (store r) |}.

Definition clean_data (rows : list RawRecord) : result (list CleanRecord) :=
  let rows := Frame.drop_duplicates rows in
  segs ← store_segments rows;
  Ok (add_metrics (list_to_map segs) <$> rows).

(** ** The Loader and the constructor *)

Definition load_real_data (resp : Response) : result (list CleanRecord) :=
  match resp with
  | Unreachable => Raise ConnectionError
  | Malformed => Raise ParserError
  | Csv rows => clean_data rows
  end.

Definition init (resp : Response) : result SalesOptimizer :=
  d ← load_real_data resp;
  Ok {| data := d; summary := None |}.

(** ** The Aggregator *)

(** Lexicographic order of the label strings: High, Low, Medium. *)
Definition tier_rank (t : Tier) : Z :=
  match t with High => 0 | Low => 1 | Medium => 2 end.

Definition tier_leb (a b : Tier) : bool := tier_rank a <=? tier_rank b.

Definition tier_lt (a b : Tier) : Prop := tier_rank a < tier_rank b.

Definition byWeek (d : list CleanRecord) : list WeeklyRow :=
  (λ g : Z * list CleanRecord,
     {| weekly_date := g.1;
        weekly_revenue := Frame.sumQc (revenue <$> g.2);
        weekly_units := Frame.sumZ ((units ∘ raw) <$> g.2);
        weekly_profit := Frame.sumQc (profit <$> g.2) |})
    <$> Frame.groupby Z.leb (λ r, Some (date (raw r))) d.

Definition byTier (d : list CleanRecord) : list SegmentRow :=
  (λ g : Tier * list CleanRecord,
     {| segment_label := g.1;
        segment_revenue := Frame.round2 (Frame.sumQc (revenue <$> g.2));
        segment_units := Frame.sumZ ((units ∘ raw) <$> g.2);
        segment_profit := Frame.round2 (Frame.mean (profit <$> g.2)) |})
    <$> Frame.groupby tier_leb customer_segment d.

Definition byPromotion (d : list CleanRecord) : list PromoRow :=
  (λ g : Z * list CleanRecord,
     {| promo_flag := g.1;
        promo_units :=
          Frame.round2 (Frame.mean ((Qc_of_Z ∘ units ∘ raw) <$> g.2));
        promo_revenue := Frame.round2 (Frame.mean (revenue <$> g.2));
        promo_profit := Frame.round2 (Frame.mean (profit <$> g.2)) |})
    <$> Frame.groupby Z.leb (λ r, Some (featured (raw r))) d.

(** [analyze_sales_trends]: returns the summary and stores it in
    [self.summary]. *)
Definition analyze_sales_trends (self : SalesOptimizer)
    : Summary * SalesOptimizer :=
  let s := {| weekly_sales := byWeek (data self);
              segment_analysis := byTier (data self);
              promo_analysis := byPromotion (data self) |} in
  (s, {| data := data self; summary := Some s |}).

(** [if not self.summary: self.analyze_sales_trends()]; a summary
    dictionary, once built, has three keys and is truthy. *)
Definition ensure_summary (self : SalesOptimizer) : Summary * SalesOptimizer :=
  match summary self with
  | Some s => (s, self)
  | None => analyze_sales_trends self
  end.

(** ** The Reporter *)

(** File-system actions: a result together with the file system left behind,
    also when the action raises. *)
Definition IO (A : Type) : Type := FileSystem → result A * FileSystem.

Definition io_bind {A B : Type} (m : IO A) (k : A → IO B) : IO B :=
  λ fs, match m fs with
        | (Ok a, fs') => k a fs'
        | (Raise e, fs') => (Raise e, fs')
        end.

Definition io_lift {A : Type} (r : result A) : IO A := λ fs, (r, fs).

Notation "x ←io m ; k" := (io_bind m (λ x, k))
  (at level 20, m at level 100, k at level 200, only parsing).

(** The line break of the report template. *)
Definition nl : string := String (Ascii.ascii_of_nat 10) EmptyString.

Definition path_join (dir name : string) : string := dir +:+ "/" +:+ name.

(** [Path(dir).mkdir(exist_ok=True)]. *)
Definition mkdir (dir : string) : IO unit :=
  λ fs, (Ok (), {| dirs := {[dir]} ∪ dirs fs; files := files fs |}).

(** Writing [dir/name] ([plt.savefig], [open(..., 'w')] and [f.write]):
    the directory has to exist. *)
Definition write_file (dir name content : string) : IO unit :=
  λ fs, if decide (dir ∈ dirs fs)
        then (Ok (), {| dirs := dirs fs;
                        files := <[path_join dir name := content]> (files fs) |})
        else (Raise FileNotFoundError, fs).

Definition tier_name (t : Tier) : string :=
  match t with Low => "Low" | Medium => "Medium" | High => "High" end.

(** [s] occurs in [t] as a substring. *)
Fixpoint occurs (s t : string) : bool :=
  String.prefix s t ||
  match t with
  | EmptyString => false
  | String _ t' => occurs s t'
  end.

Definition generate_visualizations `{Renderer} (self : SalesOptimizer)
    : IO SalesOptimizer :=
  let '(s, self) := ensure_summary self in
  _ ←io mkdir "reports";
  _ ←io write_file "reports" "sales_trend.png"
         (lineplot ((λ r, (weekly_date r, weekly_revenue r))
                      <$> weekly_sales s));
  _ ←io write_file "reports" "segment_analysis.png"
         (barplot_segment ((λ r, (segment_label r, segment_revenue r))
                             <$> segment_analysis s));
  _ ←io write_file "reports" "promo_effectiveness.png"
         (barplot_promo ((λ r, (promo_flag r, promo_units r))
                           <$> promo_analysis s));
  io_lift (Ok self).

(** [summary['segment_analysis']['revenue'].idxmax()]. *)
Definition best_segment (s : Summary) : result Tier :=
  Frame.idxmax ((λ r, (segment_label r, segment_revenue r))
                  <$> segment_analysis s).

(** [promo_analysis.loc[1, 'profit'] > promo_analysis.loc[0, 'profit']]. *)
Definition promo_positive (s : Summary) : result bool :=
  p1 ← Frame.loc promo_flag promo_profit 1 (promo_analysis s);
  p0 ← Frame.loc promo_flag promo_profit 0 (promo_analysis s);
  Ok (bool_decide (p0 < p1)%Qc).

Definition judgement (positive : bool) : string :=
  if positive then "Positive" else "Negative".

Definition recommendation (positive : bool) : string :=
  if positive then "Increase" else "Decrease".

(** The report f-string; its replacement fields are evaluated left to
    right. *)
Definition report_text `{Renderer} (d : list CleanRecord) (s : Summary)
    : result string :=
  let total_revenue := fmt_money (Frame.sumQc (revenue <$> d)) in
  let total_units := fmt_count (Frame.sumZ ((units ∘ raw) <$> d)) in
  let mean_profit := fmt_fixed2 (Frame.mean (profit <$> d)) in
  let segments := segment_to_string (segment_analysis s) in
  let promos := promo_to_string (promo_analysis s) in
  best ← best_segment s;
  pos ← promo_positive s;
  focus ← best_segment s;
  pos' ← promo_positive s;
  Ok (String.concat EmptyString
    [ nl; "Sales Optimization Analysis Report"; nl;
      "Generated on: "; today; nl;
      nl;
      "1. Overall Performance Metrics:"; nl;
      "   - Total Revenue: $"; total_revenue; nl;
      "   - Total Units Sold: "; total_units; nl;
      "   - Average Profit per Sale: $"; mean_profit; nl;
      nl;
      "2. Customer Segment Analysis:"; nl;
      segments; nl;
      nl;
      "3. Promotion Effectiveness:"; nl;
      promos; nl;
      nl;
      "4. Key Insights:"; nl;
      "   - Most valuable customer segment: "; tier_name best; nl;
      "   - Promotional effectiveness: "; judgement pos;
      " impact on profits"; nl;
      "   "; nl;
      "5. Recommendations:"; nl;
      "   - Focus on "; tier_name focus;
      " segment for immediate revenue"; nl;
      "   - "; recommendation pos'; " promotional activities"; nl;
      "   "; nl;
      "Visualizations have been saved in the 'reports' directory."; nl ]).

Definition generate_report `{Renderer} (self : SalesOptimizer)
    : IO (string * SalesOptimizer) :=
  let '(s, self) := ensure_summary self in
  report ←io io_lift (report_text (data self) s);
  _ ←io write_file "reports" "analysis_report.txt" report;
  io_lift (Ok (report, self)).

(** The [__main__] block: one run of the whole pipeline on what the fetch
    returned. *)
Definition main `{Renderer} (resp : Response) : IO string :=
  optimizer ←io io_lift (init resp);
  let optimizer := (analyze_sales_trends optimizer).2 in
  optimizer ←io generate_visualizations optimizer;
  r ←io generate_report optimizer;
  io_lift (Ok r.1).

(** ** The tier rule as the spec words it

    The rule [pd.qcut] is compared against: a location is Low up to the 33rd
    percentile of the location totals, Medium up to the 66th, High above. *)

Definition percentile_tier (totals : list Qc) (x : Qc) : option Tier :=
  p33 ← Frame.quantile totals (Q2Qc (1 # 3));
  p66 ← Frame.quantile totals (Q2Qc (2 # 3));
  Some (if decide (x ≤ p33)%Qc then Low
        else if decide (x ≤ p66)%Qc then Medium else High).



(** Units sold at store [s] over the rows [rows]. *)
Definition store_total (rows : list RawRecord) (s : Z) : Z :=
  Frame.sumZ (units <$> filter (λ r, store r = s) rows).

(** The location totals as the column [pd.qcut] sees them. *)
Definition location_totals (rows : list RawRecord) : list Qc :=
  Qc_of_Z <$> (customer_frequency rows).*2.

(** ** Output paths

    The files a run can leave behind, and the file system after the charts
    were saved. *)

Definition report_path : string := path_join "reports" "analysis_report.txt".

Definition chart_paths : list string :=
  [ path_join "reports" "sales_trend.png";
    path_join "reports" "segment_analysis.png";
    path_join "reports" "promo_effectiveness.png" ].

(** The file system once [generate_visualizations] has saved the three
    charts of summary [s]. *)
Definition charts_written `{Renderer} (s : Summary) (fs : FileSystem)
    : FileSystem :=
  {| dirs := {["reports"]} ∪ dirs fs;
     files :=
       <[path_join "reports" "promo_effectiveness.png" :=
           barplot_promo ((λ r, (promo_flag r, promo_units r))
                            <$> promo_analysis s)]>
       (<[path_join "reports" "segment_analysis.png" :=
            barplot_segment ((λ r, (segment_label r, segment_revenue r))
                               <$> segment_analysis s)]>
       (<[path_join "reports" "sales_trend.png" :=
            lineplot ((λ r, (weekly_date r, weekly_revenue r))
                        <$> weekly_sales s)]> (files fs))) |}.

(** ** A worked example

    Five parsed rows over three stores and two weeks, the last one an exact
    duplicate; the stores' unit totals are 10, 50 and 90. *)

Definition example_row (d s u f : Z) : RawRecord :=
  {| date := d; store := s; price := Q2Qc (3 # 2); base_price := Q2Qc 1;
     units := u; featured := f |}.

Definition example_rows : list RawRecord :=
  [ example_row 20200108 1 4 0;
    example_row 20200101 1 6 1;
    example_row 20200101 2 50 0;
    example_row 20200101 3 90 1;
    example_row 20200101 3 90 1 ].

Definition example_segments : list (Z * option Tier) :=
  [(1, Some Low); (2, Some Medium); (3, Some High)].

Definition example_cleaned : list CleanRecord :=
  add_metrics (list_to_map example_segments)
    <$> Frame.drop_duplicates example_rows.

(** The same stores with no promoted sale at all. *)
Definition example_rows_unpromoted : list RawRecord :=
  [ example_row 20200108 1 4 0;
    example_row 20200101 1 6 0;
    example_row 20200101 2 50 0;
    example_row 20200101 3 90 0 ].

Definition example_cleaned_unpromoted : list CleanRecord :=
  add_metrics (list_to_map example_segments) <$> example_rows_unpromoted.


(** Five stores with unit totals 0, 5, 5, 9 and 10. *)
Definition example_rows_tied : list RawRecord :=
  [ example_row 20200101 1 0 0; example_row 20200101 2 5 0;
    example_row 20200101 3 5 0; example_row 20200101 4 9 1;
    example_row 20200101 5 10 1 ].

(** A renderer that prints a fixed mark for every formatted field. *)
Definition plain_renderer : Renderer :=
  {| today := "2020-01-15";
     fmt_money := λ _, "M";
     fmt_count := λ _, "C";
     fmt_fixed2 := λ _, "F";
     segment_to_string := λ _, "S";
     promo_to_string := λ _, "P";
     lineplot := λ _, "line";
     barplot_segment := λ _, "bars";
     barplot_promo := λ _, "bars" |}.

Definition empty_fs : FileSystem := {| dirs := ∅; files := ∅ |}.

(** A summary whose promoted group has mean profit 5.00 and whose
    non-promoted group has mean profit 3.00. *)
Definition example_summary : Summary :=
  {| weekly_sales := [];
     segment_analysis :=
       [ {| segment_label := High; segment_revenue := Qc_of_Z 135;
            segment_units := 90; segment_profit := Qc_of_Z 45 |} ];
     promo_analysis :=
       [ {| promo_flag := 0; promo_units := Qc_of_Z 27;
            promo_revenue := Qc_of_Z 40; promo_profit := Qc_of_Z 3 |};
         {| promo_flag := 1; promo_units := Qc_of_Z 48;
            promo_revenue := Qc_of_Z 72; promo_profit := Qc_of_Z 5 |} ] |}.

(** * Properties *)

(** ** Deduplication *)

Section DropDuplicates.
Context {A : Type} `{EqDecision A}.
Implicit Types (x : A) (l seen : list A).

Lemma elem_of_drop_duplicates_from seen l x :
  x ∈ Frame.drop_duplicates_from seen l ↔ x ∈ l ∧ x ∉ seen.
Proof.
  revert seen. induction l as [|y l IH]; intros seen; simpl.
  - rewrite !elem_of_nil. tauto.
  - destruct (decide (y ∈ seen)) as [Hy|Hy].
    + rewrite IH, elem_of_cons. split; [tauto|].
      intros [[->|?] ?]; tauto.
    + rewrite !elem_of_cons, IH, elem_of_cons.
      destruct (decide (x = y)) as [->|]; tauto.
Qed.

Lemma elem_of_drop_duplicates l x : x ∈ Frame.drop_duplicates l ↔ x ∈ l.
Proof.
  unfold Frame.drop_duplicates. rewrite elem_of_drop_duplicates_from.
  rewrite elem_of_nil. tauto.
Qed.

Lemma NoDup_drop_duplicates_from seen l :
  NoDup (Frame.drop_duplicates_from seen l).
Proof.
  revert seen. induction l as [|y l IH]; intros seen; simpl.
  - constructor.
  - destruct (decide (y ∈ seen)); [apply IH|].
    constructor; [|apply IH].
    rewrite elem_of_drop_duplicates_from, elem_of_cons. tauto.
Qed.

Lemma NoDup_drop_duplicates l : NoDup (Frame.drop_duplicates l).
Proof. apply NoDup_drop_duplicates_from. Qed.

Lemma drop_duplicates_from_id seen l :
  NoDup l → (∀ x, x ∈ l → x ∉ seen) → Frame.drop_duplicates_from seen l = l.
Proof.
  revert seen. induction l as [|y l IH]; intros seen Hnd Hfresh; simpl.
  - reflexivity.
  - apply NoDup_cons in Hnd as [Hy Hnd].
    destruct (decide (y ∈ seen)) as [Hin|_].
    + destruct (Hfresh y); [left|assumption].
    + f_equal. apply IH; [assumption|].
      intros x Hx [->|Hs]%elem_of_cons; [tauto|].
      apply (Hfresh x); [by right|assumption].
Qed.

Lemma drop_duplicates_id l : NoDup l → Frame.drop_duplicates l = l.
Proof.
  intros Hnd. apply drop_duplicates_from_id; [assumption|].
  intros x _. apply not_elem_of_nil.
Qed.

Lemma drop_duplicates_idemp l :
  Frame.drop_duplicates (Frame.drop_duplicates l) = Frame.drop_duplicates l.
Proof. apply drop_duplicates_id, NoDup_drop_duplicates. Qed.

Lemma drop_duplicates_from_sublist seen l :
  sublist (Frame.drop_duplicates_from seen l) l.
Proof.
  revert seen. induction l as [|y l IH]; intros seen; simpl.
  - constructor.
  - destruct (decide (y ∈ seen)); [apply sublist_cons|apply sublist_skip];
      apply IH.
Qed.

(** The accumulator version agrees with the position-wise description, for
    any prefix [pre] already consumed whose rows are the ones in [seen]. *)
Lemma drop_duplicates_from_positions seen pre l :
  (∀ x, x ∈ seen ↔ x ∈ pre) →
  Frame.drop_duplicates_from seen l =
  omap (λ p : nat * A,
          if decide (p.2 ∈ take p.1 (pre ++ l)) then None else Some p.2)
       (imap (λ i x, (length pre + i, x)%nat) l).
Proof.
  revert seen pre. induction l as [|y l IH]; intros seen pre Hseen.
  - reflexivity.
  - assert (Htail : ∀ seen',
      (∀ x, x ∈ seen' ↔ x ∈ pre ++ [y]) →
      Frame.drop_duplicates_from seen' l =
      omap (λ p : nat * A,
              if decide (p.2 ∈ take p.1 (pre ++ y :: l)) then None
              else Some p.2)
           (imap ((λ i x, (length pre + i, x)%nat) ∘ S) l)).
    { intros seen' Hseen'. rewrite (IH seen' (pre ++ [y]) Hseen').
      rewrite <- (assoc_L (++)). simpl. f_equal.
      apply imap_ext. intros i x _. simpl.
      rewrite length_app. simpl. f_equal. lia. }
    cbn [Frame.drop_duplicates_from imap]. rewrite Nat.add_0_r.
    cbn [omap list_omap fst snd].
    rewrite (take_app_length pre (y :: l)).
    destruct (decide (y ∈ seen)) as [Hin|Hin];
      destruct (decide (y ∈ pre)) as [Hin'|Hin'];
      try (exfalso; apply Hseen in Hin; tauto);
      try (exfalso; apply Hseen in Hin'; tauto).
    + apply Htail. intros x.
      rewrite elem_of_app, list_elem_of_singleton, <- Hseen.
      split; [tauto|]. intros [?| ->]; assumption.
    + f_equal. apply Htail. intros x.
      rewrite elem_of_cons, elem_of_app, list_elem_of_singleton, Hseen. tauto.
Qed.

Lemma drop_duplicates_first_occurrences l :
  Frame.drop_duplicates l = Frame.first_occurrences l.
Proof.
  unfold Frame.drop_duplicates, Frame.first_occurrences.
  rewrite (drop_duplicates_from_positions [] [] l); [reflexivity|].
  intros x; reflexivity.
Qed.
End DropDuplicates.

(** ** Group keys *)

Section GroupKeys.
Context {A K : Type} `{EqDecision K}.
Variable leb : K → K → bool.
Variable key : A → option K.
Implicit Types (k x : K) (ks : list K) (l : list A).

Lemma elem_of_insert_key k ks x :
  x ∈ Frame.insert_key leb k ks ↔ x = k ∨ x ∈ ks.
Proof.
  induction ks as [|k' ks IH]; simpl.
  - rewrite list_elem_of_singleton, elem_of_nil. tauto.
  - destruct (decide (k = k')) as [->|Hne].
    + rewrite elem_of_cons. tauto.
    + destruct (leb k k'); rewrite !elem_of_cons; [tauto|].
      rewrite IH. tauto.
Qed.

Lemma elem_of_group_keys l k :
  k ∈ Frame.group_keys leb key l ↔ ∃ r, r ∈ l ∧ key r = Some k.
Proof.
  unfold Frame.group_keys.
  transitivity (k ∈ omap key l); [|apply list_elem_of_omap].
  induction (omap key l) as [|k' ks IH]; simpl.
  - reflexivity.
  - rewrite elem_of_insert_key, elem_of_cons, IH. reflexivity.
Qed.

Lemma groupby_keys l :
  (Frame.groupby leb key l).*1 = Frame.group_keys leb key l.
Proof.
  unfold Frame.groupby. rewrite <- list_fmap_compose.
  apply list_fmap_id.
Qed.

Lemma length_groupby l :
  length (Frame.groupby leb key l) = length (Frame.group_keys leb key l).
Proof. unfold Frame.groupby. apply length_fmap. Qed.

Lemma elem_of_groupby l k g :
  (k, g) ∈ Frame.groupby leb key l ↔
  k ∈ Frame.group_keys leb key l ∧ g = filter (λ r, key r = Some k) l.
Proof.
  unfold Frame.groupby. rewrite list_elem_of_fmap. split.
  - intros (k' & [= -> ->] & Hk). tauto.
  - intros [Hk ->]. exists k. tauto.
Qed.

(** Every group has at least one row. *)
Lemma groupby_nonempty l k g : (k, g) ∈ Frame.groupby leb key l → g ≠ [].
Proof.
  rewrite elem_of_groupby, elem_of_group_keys.
  intros [(r & Hr & Hk) ->] Hnil.
  assert (r ∈ filter (λ r, key r = Some k) l) as Hin
    by (apply list_elem_of_filter; tauto).
  rewrite Hnil in Hin. by apply elem_of_nil in Hin.
Qed.

(** With [leb] deciding a strict total order [lt], the keys come out
    strictly ascending. *)
Variable lt : relation K.
Context `{!StrictOrder lt}.
Hypothesis leb_lt : ∀ a b, a ≠ b → if leb a b then lt a b else lt b a.

Lemma insert_key_sorted k ks :
  StronglySorted lt ks → StronglySorted lt (Frame.insert_key leb k ks).
Proof.
  induction 1 as [|k' ks Hs IH Hall]; simpl.
  - repeat constructor.
  - destruct (decide (k = k')) as [->|Hne]; [by constructor|].
    pose proof (leb_lt k k' Hne) as Hcmp. destruct (leb k k').
    + constructor; [by constructor|].
      constructor; [assumption|].
      eapply Forall_impl; [exact Hall|]. intros y Hy. by etrans.
    + constructor; [assumption|].
      apply Forall_forall. intros y [->|Hy]%elem_of_insert_key; [assumption|].
      by eapply Forall_forall in Hall.
Qed.

Lemma group_keys_sorted l : StronglySorted lt (Frame.group_keys leb key l).
Proof.
  unfold Frame.group_keys. induction (omap key l) as [|k ks IH]; simpl.
  - constructor.
  - by apply insert_key_sorted.
Qed.

Lemma StronglySorted_lt_NoDup ks : StronglySorted lt ks → NoDup ks.
Proof.
  induction 1 as [|k ks Hs IH Hall]; constructor; [|assumption].
  intros Hin. eapply Forall_forall in Hall; [|exact Hin].
  by apply (irreflexivity lt k).
Qed.

Lemma group_keys_NoDup l : NoDup (Frame.group_keys leb key l).
Proof. apply StronglySorted_lt_NoDup, group_keys_sorted. Qed.



End GroupKeys.

Lemma Z_leb_lt (a b : Z) : a ≠ b → if a <=? b then a < b else b < a.
Proof. intros. destruct (Z.leb_spec a b); lia. Qed.

Global Instance tier_lt_strict : StrictOrder tier_lt.
Proof.
  split.
  - intros a. unfold complement, tier_lt. lia.
  - intros a b c. unfold tier_lt. lia.
Qed.


(** ** Cleaning *)

Lemma clean_data_Ok rows cleaned :
  clean_data rows = Ok cleaned →
  ∃ segs, store_segments (Frame.drop_duplicates rows) = Ok segs ∧
          cleaned = add_metrics (list_to_map segs)
                      <$> Frame.drop_duplicates rows.
Proof.
  unfold clean_data. intros Hc.
  destruct (store_segments (Frame.drop_duplicates rows)) as [segs|e];
    simpl in Hc; [|discriminate].
  exists segs. split; congruence.
Qed.

Lemma raw_add_metrics d (rows : list RawRecord) :
  raw <$> (add_metrics d <$> rows) = rows.
Proof.
  rewrite <- list_fmap_compose. induction rows as [|r rows IH]; simpl.
  - reflexivity.
  - f_equal. exact IH.
Qed.

Lemma clean_data_raw rows cleaned :
  clean_data rows = Ok cleaned → raw <$> cleaned = Frame.drop_duplicates rows.
Proof.
  intros (segs & _ & ->)%clean_data_Ok. apply raw_add_metrics.
Qed.

Lemma clean_data_NoDup rows cleaned : clean_data rows = Ok cleaned → NoDup cleaned.
Proof.
  intros Hc. apply (NoDup_fmap_1 raw). rewrite (clean_data_raw _ _ Hc).
  apply NoDup_drop_duplicates.
Qed.

Lemma clean_data_drop_duplicates rows :
  clean_data (Frame.drop_duplicates rows) = clean_data rows.
Proof. unfold clean_data. by rewrite drop_duplicates_idemp. Qed.

Lemma example_clean_data : clean_data example_rows = Ok example_cleaned.
Proof.
  unfold clean_data.
  assert (store_segments (Frame.drop_duplicates example_rows)
          = Ok example_segments) as -> by (vm_compute; reflexivity).
  reflexivity.
Qed.

(** C2. Every cleaned record carries [revenue = unit_price * units_sold] and
    [profit = revenue - reference_price * units_sold]; hence the revenue
    column sums to the sum of [unit_price * units_sold] over the cleaned
    records. *)
Theorem C2_derived_metrics (rows : list RawRecord) (cleaned : list CleanRecord) :
  clean_data rows = Ok cleaned →
  (∀ r, r ∈ cleaned →
     revenue r = (price (raw r) * Qc_of_Z (units (raw r)))%Qc ∧
     profit r = (revenue r - base_price (raw r) * Qc_of_Z (units (raw r)))%Qc) ∧
  Frame.sumQc (revenue <$> cleaned) =
  Frame.sumQc ((λ r, price (raw r) * Qc_of_Z (units (raw r)))%Qc <$> cleaned).
Proof.
  intros (segs & _ & ->)%clean_data_Ok.
  assert (Hrow : ∀ r, r ∈ add_metrics (list_to_map segs)
                          <$> Frame.drop_duplicates rows →
                 revenue r = (price (raw r) * Qc_of_Z (units (raw r)))%Qc ∧
                 profit r = (revenue r
                   - base_price (raw r) * Qc_of_Z (units (raw r)))%Qc).
  { intros r (r0 & -> & _)%list_elem_of_fmap. simpl. split; [reflexivity|].
    by rewrite (Qcmult_comm (base_price r0)). }
  split; [exact Hrow|].
  f_equal. apply list_fmap_ext. intros i r Hr.
  apply Hrow. by eapply list_elem_of_lookup_2.
Qed.

Lemma C2_derived_metrics_witness :
  clean_data example_rows = Ok example_cleaned ∧
  Frame.sumQc (revenue <$> example_cleaned) =
  Frame.sumQc ((λ r, price (raw r) * Qc_of_Z (units (raw r)))%Qc
                 <$> example_cleaned).
Proof.
  split; [exact example_clean_data|].
  apply (C2_derived_metrics example_rows example_cleaned example_clean_data).
Defined.

(** C3. Deduplication keeps every distinct row value, leaves no two identical
    rows, drops nothing but rows of the input (two identical records become
    one), and is idempotent: deduplicating its own output, or the Cleaner's
    output, removes nothing, and running the Cleaner on the rows it kept
    yields the same cleaned records. *)
Theorem C3_deduplication_idempotent (rows : list RawRecord) :
  (∀ r, r ∈ Frame.drop_duplicates rows ↔ r ∈ rows) ∧
  NoDup (Frame.drop_duplicates rows) ∧
  sublist (Frame.drop_duplicates rows) rows ∧
  (∀ r : RawRecord, Frame.drop_duplicates [r; r] = [r]) ∧
  Frame.drop_duplicates (Frame.drop_duplicates rows)
    = Frame.drop_duplicates rows ∧
  (clean_data rows ≫= λ cleaned, Ok (Frame.drop_duplicates cleaned))
    = clean_data rows ∧
  (clean_data rows ≫= λ cleaned, clean_data (raw <$> cleaned))
    = clean_data rows.
Proof.
  split; [apply elem_of_drop_duplicates|].
  split; [apply NoDup_drop_duplicates|].
  split; [apply drop_duplicates_from_sublist|].
  split.
  { intros r. unfold Frame.drop_duplicates.
    cbn [Frame.drop_duplicates_from].
    rewrite (decide_False (P := r ∈ [])) by apply not_elem_of_nil.
    rewrite (decide_True (P := r ∈ [r])) by left. reflexivity. }
  split; [apply drop_duplicates_idemp|].
  destruct (clean_data rows) as [cleaned|e] eqn:Hc; simpl; [|by split].
  split.
  - f_equal. apply drop_duplicates_id. by eapply clean_data_NoDup.
  - rewrite (clean_data_raw _ _ Hc), clean_data_drop_duplicates. exact Hc.
Qed.

(** C10. Deduplication keeps the first occurrence of every row and the
    relative order of what it keeps: the cleaned sequence is the subsequence
    of the input made of the rows not preceded by an identical row. *)
Theorem C10_first_occurrence_order (rows : list RawRecord)
    (cleaned : list CleanRecord) :
  clean_data rows = Ok cleaned →
  raw <$> cleaned = Frame.first_occurrences rows ∧
  sublist (raw <$> cleaned) rows ∧
  ∀ i r, (raw <$> cleaned) !! i = Some r →
         ∃ j, rows !! j = Some r ∧ r ∉ take j rows.
Proof.
  intros Hc. rewrite (clean_data_raw _ _ Hc).
  split; [apply drop_duplicates_first_occurrences|].
  split; [apply drop_duplicates_from_sublist|].
  intros i r Hi. rewrite drop_duplicates_first_occurrences in Hi.
  apply list_elem_of_lookup_2 in Hi.
  apply list_elem_of_omap in Hi as ([j x] & Hjx & Hkeep).
  apply elem_of_lookup_imap in Hjx as (j' & x' & [= -> ->] & Hj).
  simpl in Hkeep. destruct (decide (x' ∈ take j' rows)); [discriminate|].
  injection Hkeep as ->. eauto.
Qed.

Lemma C10_first_occurrence_order_witness :
  raw <$> example_cleaned = Frame.first_occurrences example_rows ∧
  length example_cleaned = 4%nat.
Proof.
  split; [|reflexivity].
  apply (C10_first_occurrence_order example_rows example_cleaned
           example_clean_data).
Defined.

(** ** Quantiles and bins *)

Lemma Qc_eq_Qeq (x y : Qc) : x = y ↔ (this x == this y)%Q.
Proof. split; [by intros ->|apply Qc_is_canon]. Qed.

(** Goals and hypotheses over [Qc] restated over [Q], where [lra] and [nra]
    apply. *)
Ltac qc_unfold :=
  repeat match goal with
  | H : @eq Qc _ _ |- _ => apply Qc_eq_Qeq in H
  | H : ¬ @eq Qc _ _ |- _ => rewrite Qc_eq_Qeq in H
  | |- @eq Qc _ _ => apply Qc_eq_Qeq
  | |- ¬ @eq Qc _ _ => rewrite Qc_eq_Qeq
  end;
  unfold Qclt, Qcle, Qcminus, Qcopp, Qcplus, Qcmult, Q2Qc, Qc_of_Z in *;
  cbn [this] in *;
  rewrite ?Qred_correct in *.

Ltac qc_lra := qc_unfold; lra.
Ltac qc_nra := qc_unfold; nra.

Lemma Qfloor_unique (x : Q) (f : Z) :
  (inject_Z f <= x)%Q → (x < inject_Z f + 1)%Q → Qfloor x = f.
Proof.
  intros Hle Hlt.
  pose proof (Qfloor_le x) as Hfl. pose proof (Qlt_floor x) as Hfu.
  assert (inject_Z f < inject_Z (Qfloor x + 1))%Q as H1 by lra.
  assert (inject_Z (Qfloor x) < inject_Z (f + 1))%Q as H2
    by (rewrite inject_Z_plus; change (inject_Z 1) with 1%Q; lra).
  rewrite <- Zlt_Qlt in H1, H2. lia.
Qed.

Lemma quantile_at (xs : list Qc) (q fr : Qc) (f : Z) :
  (Qc_of_Z (Z.of_nat (length xs) - 1) * q = Qc_of_Z f + fr)%Qc →
  (Q2Qc 0 ≤ fr)%Qc → (fr < Q2Qc 1)%Qc →
  Frame.quantile xs q =
  (a ← merge_sort Qcle xs !! Z.to_nat f;
   Some (a + (default a (merge_sort Qcle xs !! S (Z.to_nat f)) - a) * fr)%Qc).
Proof.
  intros Hpos H0 H1. unfold Frame.quantile.
  rewrite (Permutation_length (merge_sort_Permutation Qcle xs)), Hpos.
  assert (Qfloor (Qc_of_Z f + fr)%Qc = f) as ->.
  { apply Qfloor_unique; qc_lra. }
  assert ((Qc_of_Z f + fr - Qc_of_Z f)%Qc = fr) as -> by ring.
  reflexivity.
Qed.

Lemma third_split (m k : Z) :
  (Qc_of_Z m * Q2Qc (k # 3) =
   Qc_of_Z ((m * k) `div` 3) + Q2Qc ((m * k) `mod` 3 # 3))%Qc.
Proof.
  pose proof (Z.div_mod (m * k) 3 ltac:(lia)) as Hdm.
  qc_unfold. unfold Qeq, Qmult, Qplus, inject_Z. simpl. lia.
Qed.

Lemma third_frac_bounds (m k : Z) :
  (Q2Qc 0 ≤ Q2Qc ((m * k) `mod` 3 # 3))%Qc ∧
  (Q2Qc ((m * k) `mod` 3 # 3) < Q2Qc 1)%Qc.
Proof.
  pose proof (Z.mod_pos_bound (m * k) 3 ltac:(lia)) as Hb.
  split; qc_unfold; unfold Qle, Qlt; simpl; lia.
Qed.

Lemma quantile_min (xs : list Qc) :
  Frame.quantile xs (Q2Qc 0) = merge_sort Qcle xs !! 0%nat.
Proof.
  rewrite (quantile_at xs _ (Q2Qc 0) 0);
    [|rewrite Z2Qc_inj_0; ring|qc_lra|qc_lra].
  change (Z.to_nat 0) with 0%nat.
  destruct (merge_sort Qcle xs !! 0%nat) as [a|];
    cbn [mbind option_bind]; [f_equal; ring|reflexivity].
Qed.

Lemma quantile_max (xs : list Qc) :
  Frame.quantile xs (Q2Qc 1) = merge_sort Qcle xs !! pred (length xs).
Proof.
  rewrite (quantile_at xs _ (Q2Qc 0) (Z.of_nat (length xs) - 1));
    [|ring|qc_lra|qc_lra].
  replace (Z.to_nat (Z.of_nat (length xs) - 1)) with (pred (length xs)) by lia.
  destruct (merge_sort Qcle xs !! pred (length xs)) as [a|];
    cbn [mbind option_bind]; [f_equal; ring|reflexivity].
Qed.

Lemma quantile_third (xs : list Qc) (k : Z) :
  Frame.quantile xs (Q2Qc (k # 3)) =
  (a ← merge_sort Qcle xs !! Z.to_nat (((Z.of_nat (length xs) - 1) * k) `div` 3);
   Some (a + (default a (merge_sort Qcle xs
                 !! S (Z.to_nat (((Z.of_nat (length xs) - 1) * k) `div` 3)))
              - a)
            * Q2Qc (((Z.of_nat (length xs) - 1) * k) `mod` 3 # 3))%Qc).
Proof.
  apply quantile_at; [apply third_split|apply third_frac_bounds..].
Qed.


Section SortedLookup.
Context {A : Type} (R : relation A).

Lemma StronglySorted_lookup_lt (v : list A) (i j : nat) (a b : A) :
  StronglySorted R v → v !! i = Some a → v !! j = Some b → (i < j)%nat →
  R a b.
Proof.
  intros Hs. revert i j. induction Hs as [|x v Hs IH Hall]; intros i j Hi Hj Hlt.
  - by rewrite lookup_nil in Hi.
  - destruct j as [|j]; [lia|]. simpl in Hj. destruct i as [|i].
    + injection Hi as ->. eapply Forall_forall in Hall; [exact Hall|].
      by eapply list_elem_of_lookup_2.
    + simpl in Hi. apply (IH i j); [assumption..|lia].
Qed.
End SortedLookup.

Lemma sorted_lookup_le (v : list Qc) (i j : nat) (a b : Qc) :
  StronglySorted Qcle v → v !! i = Some a → v !! j = Some b → (i ≤ j)%nat →
  (a ≤ b)%Qc.
Proof.
  intros Hs Hi Hj Hle. destruct (decide (i = j)) as [->|Hne].
  - rewrite Hi in Hj. injection Hj as ->. apply Qcle_refl.
  - apply (StronglySorted_lookup_lt Qcle v i j); [assumption..|lia].
Qed.








Lemma cut_label_bins (b0 b1 b2 b3 x : Qc) :
  (b0 < b1)%Qc → (b1 < b2)%Qc → (b2 < b3)%Qc → (b0 ≤ x)%Qc → (x ≤ b3)%Qc →
  Frame.cut_label labels [Some b0; Some b1; Some b2; Some b3] x =
  Some (if decide (x ≤ b1)%Qc then Low
        else if decide (x ≤ b2)%Qc then Medium else High).
Proof.
  intros H01 H12 H23 H0x Hx3.
  unfold Frame.cut_label, Frame.bin_id, labels. cbn [head Frame.searchsorted].
  destruct (decide (Some (Some b0) = Some (Some x))) as [[= <-]|Hne].
  - rewrite decide_False by (simpl; lia).
    rewrite decide_True by (by apply Qclt_le_weak). reflexivity.
  - assert (b0 < x)%Qc as Hlt.
    { apply Qcle_lt_or_eq in H0x as [?| ->]; [assumption|done]. }
    rewrite (decide_True (P := (b0 < x)%Qc)) by assumption.
    destruct (decide (x ≤ b1)%Qc) as [Hx1|Hx1].
    { rewrite (decide_False (P := (b1 < x)%Qc)) by (by apply Qcle_not_lt).
      rewrite decide_False by (simpl; lia). reflexivity. }
    apply Qcnot_le_lt in Hx1.
    rewrite (decide_True (P := (b1 < x)%Qc)) by assumption.
    destruct (decide (x ≤ b2)%Qc) as [Hx2|Hx2].
    { rewrite (decide_False (P := (b2 < x)%Qc)) by (by apply Qcle_not_lt).
      rewrite decide_False by (simpl; lia). reflexivity. }
    apply Qcnot_le_lt in Hx2.
    rewrite (decide_True (P := (b2 < x)%Qc)) by assumption.
    rewrite (decide_False (P := (b3 < x)%Qc)) by (by apply Qcle_not_lt).
    rewrite decide_False by (simpl; lia). reflexivity.
Qed.


Lemma location_totals_qcut (rows : list RawRecord) :
  (prod_map id Qc_of_Z <$> customer_frequency rows).*2 = location_totals rows.
Proof.
  unfold location_totals. rewrite <- !list_fmap_compose.
  apply list_fmap_ext. by intros _ [s u] _.
Qed.

Global Instance Qc_of_Z_inj : Inj (=) (=) Qc_of_Z.
Proof. exact Z2Qc_inj. Qed.


(** ** Tier sizes *)






(** ** Tier assignment *)

Lemma customer_frequency_keys (rows : list RawRecord) :
  (customer_frequency rows).*1
  = Frame.group_keys Z.leb (λ r, Some (store r)) rows.
Proof.
  unfold customer_frequency. rewrite <- list_fmap_compose.
  apply groupby_keys.
Qed.

Lemma elem_of_customer_frequency (rows : list RawRecord) (s u : Z) :
  (s, u) ∈ customer_frequency rows ↔
  (∃ r, r ∈ rows ∧ store r = s) ∧ u = store_total rows s.
Proof.
  unfold customer_frequency, store_total. rewrite list_elem_of_fmap. split.
  - intros ([k g] & [= -> ->] & Hg). simpl.
    apply elem_of_groupby in Hg as [Hk ->].
    apply elem_of_group_keys in Hk as (r & Hr & [= Hs]).
    split; [by exists r|].
    do 2 f_equal. apply list_filter_iff. intros r'. split; congruence.
  - intros [(r & Hr & Hs) ->].
    exists (s, filter (λ r, Some (store r) = Some s) rows). split.
    + simpl. do 3 f_equal. apply list_filter_iff. intros r'.
      split; congruence.
    + apply elem_of_groupby. split; [|reflexivity].
      apply elem_of_group_keys. exists r. split; congruence.
Qed.

Lemma customer_frequency_NoDup (rows : list RawRecord) :
  NoDup (customer_frequency rows).*1.
Proof.
  rewrite customer_frequency_keys.
  apply (group_keys_NoDup _ _ Z.lt Z_leb_lt).
Qed.


(** Every cleaned record gets the tier of its store. *)
Lemma clean_data_segment (rows : list RawRecord)
    (segs : list (Z * option Tier)) (cleaned : list CleanRecord) :
  store_segments (Frame.drop_duplicates rows) = Ok segs →
  clean_data rows = Ok cleaned →
  NoDup segs.*1 →
  ∀ r t, r ∈ cleaned → (store (raw r), t) ∈ segs → customer_segment r = t.
Proof.
  intros Hsegs Hclean Hnd r t Hr Ht.
  apply clean_data_Ok in Hclean as (segs' & Hsegs' & ->).
  rewrite Hsegs in Hsegs'. injection Hsegs' as <-.
  apply list_elem_of_fmap in Hr as (r0 & -> & _). simpl in *.
  unfold map_store. by rewrite (elem_of_list_to_map_1 segs _ t Hnd Ht).
Qed.



(** ** When tier computation fails *)


Lemma qcut_duplicate_edges {I L : Type} (x : list (I * Qc)) (lbls : list L) :
  Frame.quantile x.*2 (Q2Qc 0) = Frame.quantile x.*2 (Q2Qc 1) →
  Frame.qcut x lbls = Raise ValueError.
Proof.
  intros Hends. unfold Frame.qcut. apply decide_False.
  unfold Frame.linspace3. cbn [fmap list_fmap]. rewrite Hends.
  intros [Hnotin _]%NoDup_cons. apply Hnotin.
  rewrite !elem_of_cons. tauto.
Qed.

Lemma qcut_Raise {I L : Type} (x : list (I * Qc)) (lbls : list L) e :
  Frame.qcut x lbls = Raise e →
  e = ValueError ∧ ¬ NoDup (Frame.quantile x.*2 <$> Frame.linspace3).
Proof.
  unfold Frame.qcut. destruct (decide (NoDup _)); [done|].
  by intros [= <-].
Qed.





Lemma main_clean_Raise `{Renderer} (rows : list RawRecord) (e : exn) fs :
  clean_data rows = Raise e → main (Csv rows) fs = (Raise e, fs).
Proof.
  intros Hc. unfold main, io_bind, io_lift, init. simpl. by rewrite Hc.
Qed.




(** Ties among the totals need not make the edges collide: here the cuts
    fall at 5 and 23/3, tiers are assigned, and no location is Medium. *)
Example tied_totals_empty_medium :
  store_segments (Frame.drop_duplicates example_rows_tied) =
  Ok [(1, Some Low); (2, Some Low); (3, Some Low);
      (4, Some High); (5, Some High)].
Proof. vm_compute. reflexivity. Qed.

(** ** Aggregation *)






Lemma byPromotion_flags d :
  promo_flag <$> byPromotion d
  = Frame.group_keys Z.leb (λ r, Some (featured (raw r))) d.
Proof.
  unfold byPromotion, Frame.groupby. rewrite <- !list_fmap_compose.
  apply list_fmap_id.
Qed.

Lemma byTier_labels d :
  segment_label <$> byTier d = Frame.group_keys tier_leb customer_segment d.
Proof.
  unfold byTier, Frame.groupby. rewrite <- !list_fmap_compose.
  apply list_fmap_id.
Qed.








(** ** Reporting *)

Lemma occurs_app_r (s p t : string) :
  occurs s t = true → occurs s (p +:+ t) = true.
Proof.
  intros Ht. induction p as [|c p IH]; simpl; [assumption|].
  rewrite IH. apply orb_true_r.
Qed.

Lemma string_app_cons (c : Ascii.ascii) (s t : string) :
  String c s +:+ t = String c (s +:+ t).
Proof. reflexivity. Qed.

Lemma string_app_nil_r (s : string) : s +:+ EmptyString = s.
Proof.
  induction s as [|c s IH]; [reflexivity|].
  by rewrite string_app_cons, IH.
Qed.

Lemma string_app_assoc (s t u : string) : (s +:+ t) +:+ u = s +:+ t +:+ u.
Proof.
  induction s as [|c s IH]; [reflexivity|].
  by rewrite !string_app_cons, IH.
Qed.

Lemma concat_app (l1 l2 : list string) :
  String.concat EmptyString (l1 ++ l2) = String.concat EmptyString l1 +:+ String.concat EmptyString l2.
Proof.
  induction l1 as [|x l1 IH]; [reflexivity|].
  destruct l1 as [|y l1].
  - simpl. destruct l2; simpl; [by rewrite string_app_nil_r|reflexivity].
  - change (String.concat EmptyString ((x :: y :: l1) ++ l2))
      with (x +:+ String.concat EmptyString ((y :: l1) ++ l2)).
    rewrite IH. change (String.concat EmptyString (x :: y :: l1))
      with (x +:+ String.concat EmptyString (y :: l1)).
    by rewrite string_app_assoc.
Qed.

Lemma occurs_concat_skip (s : string) (pre post : list string) :
  occurs s (String.concat EmptyString post) = true →
  occurs s (String.concat EmptyString (pre ++ post)) = true.
Proof. intros Hs. rewrite concat_app. by apply occurs_app_r. Qed.

Lemma loc_missing {R V : Type} (label : R → Z) (col : R → V) k rows :
  k ∉ label <$> rows → Frame.loc label col k rows = Raise KeyError.
Proof.
  intros Hk. unfold Frame.loc.
  destruct (list_find _ rows) as [[i r]|] eqn:Hf; [|reflexivity].
  apply list_find_Some in Hf as (Hi & Hr & _). destruct Hk.
  apply list_elem_of_fmap. exists r. split; [done|].
  by eapply list_elem_of_lookup_2.
Qed.

Lemma loc_Raise {R V : Type} (label : R → Z) (col : R → V) k rows e :
  Frame.loc label col k rows = Raise e → e = KeyError.
Proof.
  unfold Frame.loc. destruct (list_find _ rows) as [[i r]|]; congruence.
Qed.

Lemma promo_positive_missing (s : Summary) :
  1 ∉ promo_flag <$> promo_analysis s ∨ 0 ∉ promo_flag <$> promo_analysis s →
  promo_positive s = Raise KeyError.
Proof.
  unfold promo_positive. intros [H1|H0].
  - by rewrite (loc_missing _ _ _ _ H1).
  - rewrite (loc_missing _ _ 0 _ H0).
    destruct (Frame.loc promo_flag promo_profit 1 (promo_analysis s))
      as [p1|e] eqn:Hl; simpl; [reflexivity|].
    by rewrite (loc_Raise _ _ _ _ _ Hl).
Qed.

Lemma best_segment_Ok (s : Summary) :
  segment_analysis s ≠ [] → ∃ t, best_segment s = Ok t.
Proof.
  unfold best_segment. destruct (segment_analysis s); [done|].
  intros _. simpl. eauto.
Qed.

Lemma best_segment_Raise (s : Summary) e :
  best_segment s = Raise e → e = ValueError ∧ segment_analysis s = [].
Proof.
  unfold best_segment. destruct (segment_analysis s); simpl; [|done].
  intros [= <-]. done.
Qed.

Lemma ensure_summary_data self :
  data (ensure_summary self).2 = data self.
Proof. unfold ensure_summary. by destruct (summary self). Qed.

Lemma occurs_concat_drop (s : string) (n : nat) (l : list string) :
  occurs s (String.concat EmptyString (drop n l)) = true →
  occurs s (String.concat EmptyString l) = true.
Proof.
  intros Hs. rewrite <- (take_drop n l). by apply occurs_concat_skip.
Qed.

Lemma report_text_Ok `{Renderer} d s b pos :
  best_segment s = Ok b → promo_positive s = Ok pos →
  ∃ report, report_text d s = Ok report ∧
    occurs ("   - Promotional effectiveness: " +:+ judgement pos
              +:+ " impact on profits") report = true ∧
    occurs ("   - " +:+ recommendation pos +:+ " promotional activities")
      report = true.
Proof.
  intros Hb Hp. unfold report_text. rewrite Hb, Hp.
  cbn [mbind result_bind].
  eexists. split; [reflexivity|]. split.
  - apply (occurs_concat_drop _ 34). destruct pos; vm_compute; reflexivity.
  - apply (occurs_concat_drop _ 46). destruct pos; vm_compute; reflexivity.
Qed.

Lemma generate_report_Ok `{Renderer} d s report fs :
  report_text d s = Ok report → "reports" ∈ dirs fs →
  generate_report {| data := d; summary := Some s |} fs =
  (Ok (report, {| data := d; summary := Some s |}),
   {| dirs := dirs fs; files := <[report_path := report]> (files fs) |}).
Proof.
  intros Hr Hdir. unfold generate_report, ensure_summary, io_bind, io_lift.
  simpl. rewrite Hr. unfold write_file. by rewrite decide_True.
Qed.

(** C6. For every summary that has both promotion groups, whatever report
    text is produced has an insight line that says "Positive" when the
    promoted mean profit is strictly above the non-promoted one and
    "Negative" otherwise, and a recommendation line that says "Increase" in
    the first case and "Decrease" in the second, so "Increase" goes with
    "Positive" and nothing else. The text is produced as soon as the segment
    table has a row (with an empty one the lookup of the best segment
    raises), and it is what [generate_report] returns and writes. *)
Theorem C6_promotion_judgement `{Renderer} (d : list CleanRecord) (s : Summary)
    (p1 p0 : Qc) :
  Frame.loc promo_flag promo_profit 1 (promo_analysis s) = Ok p1 →
  Frame.loc promo_flag promo_profit 0 (promo_analysis s) = Ok p0 →
  (segment_analysis s ≠ [] → ∃ report, report_text d s = Ok report) ∧
  (segment_analysis s = [] → report_text d s = Raise ValueError) ∧
  (∀ report, report_text d s = Ok report →
     (if bool_decide (p0 < p1)%Qc
      then occurs "   - Promotional effectiveness: Positive impact on profits"
             report = true ∧
           occurs "   - Increase promotional activities" report = true
      else occurs "   - Promotional effectiveness: Negative impact on profits"
             report = true ∧
           occurs "   - Decrease promotional activities" report = true) ∧
     ∀ fs, "reports" ∈ dirs fs →
       generate_report {| data := d; summary := Some s |} fs =
       (Ok (report, {| data := d; summary := Some s |}),
        {| dirs := dirs fs;
           files := <[report_path := report]> (files fs) |})) ∧
  (∀ b, recommendation b = "Increase" ↔ judgement b = "Positive").
Proof.
  intros H1 H0.
  assert (promo_positive s = Ok (bool_decide (p0 < p1)%Qc)) as Hp.
  { unfold promo_positive. by rewrite H1, H0. }
  assert (Hmade : ∀ b, best_segment s = Ok b →
    ∃ report, report_text d s = Ok report ∧
      if bool_decide (p0 < p1)%Qc
      then occurs "   - Promotional effectiveness: Positive impact on profits"
             report = true ∧
           occurs "   - Increase promotional activities" report = true
      else occurs "   - Promotional effectiveness: Negative impact on profits"
             report = true ∧
           occurs "   - Decrease promotional activities" report = true).
  { intros b Hb.
    destruct (report_text_Ok d s b _ Hb Hp) as (report & Hr & Hj & Hrec).
    exists report. split; [exact Hr|].
    destruct (bool_decide (p0 < p1)%Qc); split; assumption. }
  split; [|split; [|split]].
  - intros [b Hb]%best_segment_Ok.
    destruct (Hmade b Hb) as (report & Hr & _). eauto.
  - intros Hnil. unfold report_text, best_segment. by rewrite Hnil.
  - intros report Hr.
    destruct (best_segment s) as [b|e] eqn:Hb.
    + destruct (Hmade b eq_refl) as (report' & Hr' & Hlines).
      rewrite Hr in Hr'. injection Hr' as <-.
      split; [exact Hlines|]. intros fs Hfs. by apply generate_report_Ok.
    + unfold report_text in Hr. rewrite Hb in Hr. discriminate Hr.
  - intros []; simpl; split; intros; done.
Qed.

Lemma C6_promotion_judgement_witness :
  ∃ report,
    @report_text plain_renderer example_cleaned example_summary = Ok report ∧
    occurs "Positive" report = true ∧
    occurs "   - Promotional effectiveness: Positive impact on profits"
      report = true ∧
    occurs "   - Increase promotional activities" report = true.
Proof.
  destruct (@C6_promotion_judgement plain_renderer example_cleaned
              example_summary (Qc_of_Z 5) (Qc_of_Z 3))
    as (Hmade & _ & Hlines & _).
  - reflexivity.
  - reflexivity.
  - destruct Hmade as [report Hr]; [discriminate|].
    exists report. split; [exact Hr|].
    destruct (Hlines report Hr) as [Hif _].
    change (bool_decide (Qc_of_Z 3 < Qc_of_Z 5)%Qc) with true in Hif.
    destruct Hif as [Hj Hrec]. split; [|by split].
    injection Hr as <-. vm_compute. reflexivity.
Defined.

Lemma generate_report_Raise `{Renderer} self fs e :
  report_text (data self) (ensure_summary self).1 = Raise e →
  generate_report self fs = (Raise e, fs).
Proof.
  intros Hr. unfold generate_report.
  pose proof (ensure_summary_data self) as Hd.
  destruct (ensure_summary self) as [s self']. simpl in *.
  unfold io_bind, io_lift. by rewrite Hd, Hr.
Qed.

Lemma byPromotion_flag_missing d k :
  Forall (λ r, featured (raw r) ≠ k) d → k ∉ promo_flag <$> byPromotion d.
Proof.
  intros Hall. rewrite byPromotion_flags, elem_of_group_keys.
  intros (r & Hr & [= Hk]). by eapply Forall_forall in Hall.
Qed.

(** C9. When the cleaned data has no promoted record, or no non-promoted
    record, [generate_report] raises while building the text (a [KeyError]
    from the lookup of the missing group, as soon as there is a segment table
    to report on) and leaves the file system as it found it, so no report
    file is written. *)
Theorem C9_report_needs_both_flags `{Renderer} (self : SalesOptimizer)
    (fs : FileSystem) :
  summary self = None ∨ summary self = Some (analyze_sales_trends self).1 →
  Forall (λ r, featured (raw r) ≠ 1) (data self) ∨
  Forall (λ r, featured (raw r) ≠ 0) (data self) →
  ∃ e, generate_report self fs = (Raise e, fs) ∧
       (generate_report self fs).2 = fs ∧
       (byTier (data self) ≠ [] → e = KeyError).
Proof.
  intros Hsum Hflags.
  assert ((ensure_summary self).1 = (analyze_sales_trends self).1) as Hs.
  { unfold ensure_summary. by destruct Hsum as [->| ->]. }
  assert (promo_positive (ensure_summary self).1 = Raise KeyError) as Hp.
  { rewrite Hs. apply promo_positive_missing. simpl.
    destruct Hflags; [left|right]; by apply byPromotion_flag_missing. }
  assert (∃ e, report_text (data self) (ensure_summary self).1 = Raise e ∧
               (byTier (data self) ≠ [] → e = KeyError)) as (e & Hr & He).
  { unfold report_text.
    destruct (best_segment (ensure_summary self).1) as [b|e] eqn:Hb.
    - rewrite Hp. simpl. eauto.
    - simpl. exists e. split; [reflexivity|].
      apply best_segment_Raise in Hb as [_ Hnil].
      rewrite Hs in Hnil. simpl in Hnil. congruence. }
  exists e. rewrite (generate_report_Raise _ _ _ Hr). done.
Qed.

Lemma C9_report_needs_both_flags_witness :
  @generate_report plain_renderer
    {| data := example_cleaned_unpromoted; summary := None |} empty_fs
  = (Raise KeyError, empty_fs).
Proof.
  destruct (@C9_report_needs_both_flags plain_renderer
              {| data := example_cleaned_unpromoted; summary := None |}
              empty_fs) as (e & Hr & _ & He).
  - by left.
  - left. simpl. repeat (constructor; [discriminate|]). constructor.
  - rewrite Hr, He; [reflexivity|]. simpl. discriminate.
Defined.

(** ** A whole run *)

Lemma generate_visualizations_spec `{Renderer} self fs :
  generate_visualizations self fs =
  (Ok (ensure_summary self).2, charts_written (ensure_summary self).1 fs).
Proof.
  unfold generate_visualizations.
  destruct (ensure_summary self) as [s self']. simpl.
  unfold io_bind, mkdir, write_file, io_lift. simpl.
  rewrite !decide_True by set_solver. reflexivity.
Qed.

Lemma charts_written_chart `{Renderer} s fs p :
  p ∈ chart_paths → is_Some (files (charts_written s fs) !! p).
Proof.
  unfold chart_paths. rewrite !elem_of_cons, elem_of_nil.
  intros [->|[->|[->|[]]]]; simpl.
  - rewrite lookup_insert_ne, lookup_insert_ne, lookup_insert_eq by done.
    eauto.
  - rewrite lookup_insert_ne, lookup_insert_eq by done. eauto.
  - rewrite lookup_insert_eq. eauto.
Qed.

Lemma charts_written_other `{Renderer} s fs p :
  p ∉ chart_paths → files (charts_written s fs) !! p = files fs !! p.
Proof.
  unfold chart_paths. rewrite !not_elem_of_cons. intros (? & ? & ? & _).
  simpl. by rewrite !lookup_insert_ne.
Qed.

Lemma report_path_not_chart : report_path ∉ chart_paths.
Proof.
  unfold chart_paths. rewrite !not_elem_of_cons.
  repeat split; try apply not_elem_of_nil; by vm_compute.
Qed.

(** A run whose loading and cleaning succeeded saves the charts and then
    either writes the report or raises out of the report construction. *)
Lemma main_after_init `{Renderer} resp o fs :
  init resp = Ok o →
  main resp fs =
  match report_text (data o) (analyze_sales_trends o).1 with
  | Ok report =>
      (Ok report,
       {| dirs := dirs (charts_written (analyze_sales_trends o).1 fs);
          files := <[report_path := report]>
                     (files (charts_written (analyze_sales_trends o).1 fs)) |})
  | Raise e => (Raise e, charts_written (analyze_sales_trends o).1 fs)
  end.
Proof.
  intros Hinit. unfold main, io_bind. unfold io_lift at 1. rewrite Hinit.
  set (s := (analyze_sales_trends o).1).
  change (analyze_sales_trends o).2
    with {| data := data o; summary := Some s |}.
  rewrite generate_visualizations_spec.
  change (ensure_summary {| data := data o; summary := Some s |})
    with (s, {| data := data o; summary := Some s |}).
  cbn [fst snd].
  destruct (report_text (data o) s) as [report|e] eqn:Hr.
  - rewrite (generate_report_Ok (data o) s report (charts_written s fs) Hr)
      by (simpl; set_solver).
    reflexivity.
  - rewrite (generate_report_Raise {| data := data o; summary := Some s |}
               (charts_written s fs) e Hr).
    reflexivity.
Qed.

(** C7 (as the code has it). A run that fails while loading or cleaning
    writes nothing. Once cleaning has succeeded the three chart files are
    saved, whether or not the report construction that follows succeeds. A
    run that raises leaves every path other than the three charts, the
    report among them, as it was; a run that completes has written the
    report it returns, and the charts. *)
Theorem C7_output_files `{Renderer} (resp : Response) (fs : FileSystem) :
  (∀ e, init resp = Raise e → main resp fs = (Raise e, fs)) ∧
  (∀ o, init resp = Ok o →
     Forall (λ p, is_Some (files (main resp fs).2 !! p)) chart_paths) ∧
  (∀ e fs', main resp fs = (Raise e, fs') →
     files fs' !! report_path = files fs !! report_path ∧
     ∀ p, p ∉ chart_paths → files fs' !! p = files fs !! p) ∧
  (∀ report fs', main resp fs = (Ok report, fs') →
     files fs' !! report_path = Some report ∧
     Forall (λ p, is_Some (files fs' !! p)) chart_paths).
Proof.
  assert (Hfail : ∀ e, init resp = Raise e → main resp fs = (Raise e, fs)).
  { intros e He. unfold main, io_bind. unfold io_lift at 1. by rewrite He. }
  assert (Hcharts_kept : ∀ s report,
    Forall (λ p, is_Some (<[report_path := report]>
                            (files (charts_written s fs)) !! p)) chart_paths).
  { intros s report. apply Forall_forall. intros p Hp.
    rewrite lookup_insert_ne
      by (intros <-; by apply report_path_not_chart).
    by apply charts_written_chart. }
  split; [exact Hfail|].
  destruct (init resp) as [o|e0] eqn:Hinit.
  - rewrite (main_after_init resp o fs Hinit).
    destruct (report_text (data o) (analyze_sales_trends o).1) as [report|e1].
    + split; [|split].
      * intros _ _. exact (Hcharts_kept (analyze_sales_trends o).1 report).
      * intros e fs' [=].
      * intros r fs' [= <- <-].
        split; [apply lookup_insert_eq|].
        exact (Hcharts_kept (analyze_sales_trends o).1 report).
    + split; [|split].
      * intros _ _. apply Forall_forall. intros p Hp.
        by apply charts_written_chart.
      * intros e fs' [= <- <-].
        split; [apply charts_written_other, report_path_not_chart|].
        intros p Hp. by apply charts_written_other.
      * intros r fs' [=].
  - rewrite (Hfail e0 eq_refl). split; [|split].
    + intros o [=].
    + intros e fs' [= <- <-]. done.
    + intros r fs' [=].
Qed.

Lemma C7_output_files_witness :
  (@main plain_renderer (Csv example_rows) empty_fs).1
    = Ok (default EmptyString
            (files (@main plain_renderer (Csv example_rows) empty_fs).2
               !! report_path)) ∧
  @main plain_renderer Malformed empty_fs = (Raise ParserError, empty_fs).
Proof.
  pose proof (@C7_output_files plain_renderer (Csv example_rows) empty_fs)
    as (_ & _ & _ & Hdone).
  pose proof (@C7_output_files plain_renderer Malformed empty_fs)
    as (Hfail & _).
  split; [|by apply Hfail].
  destruct (@main plain_renderer (Csv example_rows) empty_fs)
    as [[report|e] fs'] eqn:Hmain.
  - cbn [fst snd]. destruct (Hdone report fs' eq_refl) as [-> _]. reflexivity.
  - vm_compute in Hmain. discriminate.
Defined.

(** The claim of C7 as the spec words it fails: on the rows without any
    promoted sale the report construction raises after the charts were
    saved. *)
Lemma C7_counterexample :
  ¬ (∀ (R : Renderer) (resp : Response) (fs fs' : FileSystem) (e : exn),
       @main R resp fs = (Raise e, fs') → files fs' = files fs).
Proof.
  intros Hclaim.
  pose proof (Hclaim plain_renderer (Csv example_rows_unpromoted) empty_fs
    (@main plain_renderer (Csv example_rows_unpromoted) empty_fs).2
    KeyError) as Hrun.
  assert (files (@main plain_renderer (Csv example_rows_unpromoted)
                   empty_fs).2 !! path_join "reports" "sales_trend.png"
          = Some "line") as Hchart by (vm_compute; reflexivity).
  rewrite Hrun in Hchart; [discriminate|].
  vm_compute. reflexivity.
Qed.

(** * Further properties *)

(** ** Membership in the worked example *)


Lemma example_clean_data_unpromoted :
  clean_data example_rows_unpromoted = Ok example_cleaned_unpromoted.
Proof.
  unfold clean_data.
  assert (Frame.drop_duplicates example_rows_unpromoted
          = example_rows_unpromoted) as -> by (vm_compute; reflexivity).
  assert (store_segments example_rows_unpromoted = Ok example_segments)
    as -> by (vm_compute; reflexivity).
  reflexivity.
Qed.

(** ** Bins of any non-empty column *)

Lemma third_frac_le (m : Z) :
  (m * 1) `div` 3 = (m * 2) `div` 3 → 0 ≤ m →
  (Q2Qc ((m * 1) `mod` 3 # 3) ≤ Q2Qc ((m * 2) `mod` 3 # 3))%Qc.
Proof.
  intros Hd Hm.
  assert ((m * 1) `mod` 3 ≤ (m * 2) `mod` 3) by (Z.div_mod_to_equations; lia).
  qc_unfold. unfold Qle. simpl. lia.
Qed.

Lemma interpolate_between (a b fr : Qc) :
  (a ≤ b)%Qc → (Q2Qc 0 ≤ fr)%Qc → (fr < Q2Qc 1)%Qc →
  (a ≤ a + (b - a) * fr)%Qc ∧ (a + (b - a) * fr ≤ b)%Qc.
Proof. intros Hab H0 H1. split; qc_nra. Qed.

Lemma interpolate_mono (a b fr1 fr2 : Qc) :
  (a ≤ b)%Qc → (fr1 ≤ fr2)%Qc →
  (a + (b - a) * fr1 ≤ a + (b - a) * fr2)%Qc.
Proof. intros Hab Hfr. qc_nra. Qed.

(** The interpolation partner of position [lo]: the next value, or the value
    itself at the end of the column. *)
Lemma next_value (v : list Qc) (lo : nat) (a : Qc) :
  StronglySorted Qcle v → v !! lo = Some a →
  (a ≤ default a (v !! S lo))%Qc ∧
  default a (v !! S lo) ∈ v ∧
  ∀ j c, v !! j = Some c → (lo < j)%nat → (default a (v !! S lo) ≤ c)%Qc.
Proof.
  intros Hs Ha. destruct (v !! S lo) as [b|] eqn:Hb; simpl.
  - split; [apply (sorted_lookup_le v lo (S lo)); (assumption || lia)|].
    split; [by eapply list_elem_of_lookup_2|].
    intros j c Hc Hj. apply (sorted_lookup_le v (S lo) j); (assumption || lia).
  - split; [apply Qcle_refl|]. split; [by eapply list_elem_of_lookup_2|].
    intros j c Hc Hj. apply lookup_ge_None in Hb. apply lookup_lt_Some in Hc.
    lia.
Qed.

Lemma bins_sorted (xs : list Qc) :
  xs ≠ [] →
  ∃ b0 b1 b2 b3 : Qc,
    Frame.quantile xs <$> Frame.linspace3
      = [Some b0; Some b1; Some b2; Some b3] ∧
    (b0 ≤ b1)%Qc ∧ (b1 ≤ b2)%Qc ∧ (b2 ≤ b3)%Qc ∧
    b0 ∈ xs ∧ b3 ∈ xs ∧
    (∀ x, x ∈ xs → (b0 ≤ x)%Qc ∧ (x ≤ b3)%Qc).
Proof.
  intros Hne.
  assert (1 ≤ length xs)%nat as Hlen by (destruct xs; [done|simpl; lia]).
  pose proof (StronglySorted_merge_sort Qcle xs) as Hs.
  pose proof (merge_sort_Permutation Qcle xs) as Hperm.
  pose proof (Permutation_length Hperm) as Hlenv.
  unfold Frame.linspace3. cbn [fmap list_fmap].
  rewrite quantile_min, quantile_max, !quantile_third.
  set (v := merge_sort Qcle xs) in *.
  set (m := Z.of_nat (length xs) - 1).
  assert (m = Z.of_nat (length xs) - 1) as Hmdef by reflexivity.
  pose proof (third_frac_bounds m 1) as [Hf1 Hf1'].
  pose proof (third_frac_bounds m 2) as [Hf2 Hf2'].
  pose proof (third_frac_le m) as Hfle.
  set (fr1 := Q2Qc ((m * 1) `mod` 3 # 3)) in *.
  set (fr2 := Q2Qc ((m * 2) `mod` 3 # 3)) in *.
  assert (0 ≤ (m * 1) `div` 3 ∧ (m * 1) `div` 3 ≤ (m * 2) `div` 3
          ∧ (m * 2) `div` 3 ≤ m) as (Hd0 & Hd12 & Hd2m)
    by (Z.div_mod_to_equations; lia).
  set (d1 := (m * 1) `div` 3) in *. set (d2 := (m * 2) `div` 3) in *.
  assert (Z.to_nat d1 ≤ Z.to_nat d2 ∧ Z.to_nat d2 ≤ pred (length xs))%nat
    as [Hlo12 Hlo2m] by lia.
  assert (Z.to_nat d1 = Z.to_nat d2 → d1 = d2) as Hloeq by lia.
  set (lo1 := Z.to_nat d1) in *. set (lo2 := Z.to_nat d2) in *.
  destruct (lookup_lt_is_Some_2 v 0) as [v0 Hv0]; [lia|].
  destruct (lookup_lt_is_Some_2 v (pred (length xs))) as [vm Hvm]; [lia|].
  destruct (lookup_lt_is_Some_2 v lo1) as [a1 Ha1]; [lia|].
  destruct (lookup_lt_is_Some_2 v lo2) as [a2 Ha2]; [lia|].
  rewrite Hv0, Hvm, Ha1, Ha2. cbn [mbind option_bind].
  destruct (next_value v lo1 a1 Hs Ha1) as (Hn1 & Hin1 & Hafter1).
  destruct (next_value v lo2 a2 Hs Ha2) as (Hn2 & Hin2 & Hafter2).
  destruct (interpolate_between a1 _ fr1 Hn1 Hf1 Hf1') as [Hb1 Hb1'].
  destruct (interpolate_between a2 _ fr2 Hn2 Hf2 Hf2') as [Hb2 Hb2'].
  assert (Hspan : ∀ x, x ∈ v → (v0 ≤ x)%Qc ∧ (x ≤ vm)%Qc).
  { intros x [i Hi]%list_elem_of_lookup_1.
    pose proof (lookup_lt_Some _ _ _ Hi).
    split; [apply (sorted_lookup_le v 0 i)|
            apply (sorted_lookup_le v i (pred (length xs)))];
      try assumption; lia. }
  eexists _, _, _, _. split; [reflexivity|].
  split; [|split; [|split; [|split; [|split]]]].
  - eapply Qcle_trans; [|exact Hb1].
    apply (sorted_lookup_le v 0 lo1); (assumption || lia).
  - destruct (decide (lo1 = lo2)) as [Heq|Hneq].
    + rewrite <- Heq in Ha2. rewrite Ha1 in Ha2. injection Ha2 as <-.
      rewrite <- Heq. apply interpolate_mono; [assumption|].
      apply Hfle; [by apply Hloeq|lia].
    + eapply Qcle_trans; [exact Hb1'|].
      eapply Qcle_trans; [|exact Hb2].
      apply (Hafter1 lo2 a2 Ha2). lia.
  - eapply Qcle_trans; [exact Hb2'|]. by apply Hspan.
  - rewrite <- Hperm. by eapply list_elem_of_lookup_2.
  - rewrite <- Hperm. by eapply list_elem_of_lookup_2.
  - intros x Hx. apply Hspan. by rewrite Hperm.
Qed.

(** Whenever [pd.qcut] succeeds on the location totals, its four edges are
    strictly ascending, the outer two are the smallest and the largest
    total, and every location is labelled by the percentile rule. *)
Lemma store_segments_Ok (rows : list RawRecord)
    (segs : list (Z * option Tier)) :
  store_segments rows = Ok segs →
  ∃ b0 b1 b2 b3 : Qc,
    Frame.quantile (location_totals rows) <$> Frame.linspace3
      = [Some b0; Some b1; Some b2; Some b3] ∧
    (b0 < b1)%Qc ∧ (b1 < b2)%Qc ∧ (b2 < b3)%Qc ∧
    b0 ∈ location_totals rows ∧ b3 ∈ location_totals rows ∧
    (∀ x, x ∈ location_totals rows → (b0 ≤ x)%Qc ∧ (x ≤ b3)%Qc) ∧
    segs = (λ p : Z * Z,
              (p.1, percentile_tier (location_totals rows) (Qc_of_Z p.2)))
             <$> customer_frequency rows.
Proof.
  intros Hsegs.
  destruct (decide (location_totals rows = [])) as [Hnil|Hne].
  { unfold store_segments in Hsegs.
    rewrite qcut_duplicate_edges in Hsegs; [discriminate Hsegs|].
    rewrite location_totals_qcut, Hnil. reflexivity. }
  destruct (bins_sorted _ Hne)
    as (b0 & b1 & b2 & b3 & Hbins & H01 & H12 & H23 & Hin0 & Hin3 & Hspan).
  unfold store_segments, Frame.qcut in Hsegs.
  rewrite location_totals_qcut, Hbins in Hsegs.
  destruct (decide (NoDup [Some b0; Some b1; Some b2; Some b3]))
    as [Hnd|]; [|discriminate Hsegs].
  apply NoDup_cons in Hnd as [Hn0 Hnd]. apply NoDup_cons in Hnd as [Hn1 Hnd].
  apply NoDup_cons in Hnd as [Hn2 _].
  apply not_elem_of_cons in Hn0 as [Hn01 _].
  apply not_elem_of_cons in Hn1 as [Hn12 _].
  apply not_elem_of_cons in Hn2 as [Hn23 _].
  assert (∀ a b : Qc, (a ≤ b)%Qc → Some a ≠ Some b → (a < b)%Qc) as Hstrict.
  { intros a b [?| ->]%Qcle_lt_or_eq ?; [assumption|done]. }
  apply Hstrict in H01, H12, H23; try assumption.
  exists b0, b1, b2, b3. split; [exact Hbins|].
  do 6 (split; [assumption|]).
  injection Hsegs as <-.
  rewrite <- list_fmap_compose. apply list_fmap_ext.
  intros i [s u] Hi. simpl.
  destruct (Hspan (Qc_of_Z u)) as [Hlo Hhi].
  { unfold location_totals. apply list_elem_of_fmap_2.
    apply list_elem_of_fmap. exists (s, u). split; [done|].
    by eapply list_elem_of_lookup_2. }
  rewrite (cut_label_bins b0 b1 b2 b3) by assumption.
  unfold percentile_tier. unfold Frame.linspace3 in Hbins.
  cbn [fmap list_fmap] in Hbins. injection Hbins as _ -> -> _.
  reflexivity.
Qed.

(** What a successful run of the Cleaner says about its tiers. *)
Lemma clean_data_tiers (rows : list RawRecord) (cleaned : list CleanRecord) :
  clean_data rows = Ok cleaned →
  ∃ b0 b1 b2 b3 : Qc,
    (b0 < b1)%Qc ∧ (b1 < b2)%Qc ∧ (b2 < b3)%Qc ∧
    b0 ∈ location_totals (Frame.drop_duplicates rows) ∧
    b3 ∈ location_totals (Frame.drop_duplicates rows) ∧
    (∀ x, x ∈ location_totals (Frame.drop_duplicates rows) →
          (b0 ≤ x)%Qc ∧ (x ≤ b3)%Qc) ∧
    (∀ x, percentile_tier (location_totals (Frame.drop_duplicates rows)) x =
          Some (if decide (x ≤ b1)%Qc then Low
                else if decide (x ≤ b2)%Qc then Medium else High)) ∧
    (∀ r, r ∈ cleaned →
       customer_segment r =
       percentile_tier (location_totals (Frame.drop_duplicates rows))
         (Qc_of_Z (store_total (Frame.drop_duplicates rows)
                     (store (raw r))))).
Proof.
  intros Hclean.
  destruct (clean_data_Ok _ _ Hclean) as (segs & Hsegs & Hcleaned).
  destruct (store_segments_Ok _ _ Hsegs)
    as (b0 & b1 & b2 & b3 & Hbins & H01 & H12 & H23 & Hin0 & Hin3 & Hspan
        & Hrule).
  exists b0, b1, b2, b3. do 6 (split; [assumption|]).
  unfold Frame.linspace3 in Hbins. cbn [fmap list_fmap] in Hbins.
  injection Hbins as _ Hq1 Hq2 _.
  split.
  { intros x. unfold percentile_tier. by rewrite Hq1, Hq2. }
  intros r Hr.
  assert (NoDup segs.*1) as Hkeys.
  { rewrite Hrule, <- list_fmap_compose.
    apply (customer_frequency_NoDup (Frame.drop_duplicates rows)). }
  apply (clean_data_segment rows segs cleaned Hsegs Hclean Hkeys r _ Hr).
  rewrite Hcleaned in Hr.
  apply list_elem_of_fmap in Hr as (r0 & -> & Hr0). simpl.
  rewrite Hrule. apply list_elem_of_fmap.
  exists (store r0, store_total (Frame.drop_duplicates rows) (store r0)).
  split; [done|].
  apply elem_of_customer_frequency. split; [by exists r0|done].
Qed.

Lemma elem_of_location_totals (rows : list RawRecord) (x : Qc) :
  x ∈ location_totals rows ↔
  ∃ r, r ∈ rows ∧ x = Qc_of_Z (store_total rows (store r)).
Proof.
  unfold location_totals. rewrite list_elem_of_fmap. split.
  - intros (u & -> & ([s u'] & -> & Hp)%list_elem_of_fmap).
    apply elem_of_customer_frequency in Hp as [(r & Hr & <-) ->].
    by exists r.
  - intros (r & Hr & ->). eexists. split; [reflexivity|].
    apply list_elem_of_fmap. exists (store r, store_total rows (store r)).
    split; [done|]. apply elem_of_customer_frequency.
    split; [by exists r|done].
Qed.

Lemma clean_data_elem (rows : list RawRecord) (cleaned : list CleanRecord)
    (r0 : RawRecord) :
  clean_data rows = Ok cleaned → r0 ∈ Frame.drop_duplicates rows →
  ∃ r, r ∈ cleaned ∧ raw r = r0.
Proof.
  intros Hc Hr0. rewrite <- (clean_data_raw _ _ Hc) in Hr0.
  apply list_elem_of_fmap in Hr0 as (r & -> & Hr). by exists r.
Qed.








(** ** Group sums add up *)

Section GroupSums.
Context {A K M : Type} `{EqDecision K}.
Variable add : M → M → M.
Variable zero : M.
Hypothesis add_assoc : ∀ x y z, add x (add y z) = add (add x y) z.
Hypothesis add_comm : ∀ x y, add x y = add y x.
Hypothesis add_zero : ∀ x, add zero x = x.
Variable key : A → option K.
Variable f : A → M.

Local Abbreviation total := (foldr add zero).
Local Abbreviation group k l :=
  (total (f <$> filter (λ r, key r = Some k) l)).






End GroupSums.

(** ** Rounding *)





Lemma rint_Z (z : Z) : Frame.rint (Qc_of_Z z) = z.
Proof.
  unfold Frame.rint.
  assert (Qfloor (Qc_of_Z z) = z) as -> by apply Qfloor_Z.
  rewrite decide_True; [reflexivity|]. qc_lra.
Qed.


Lemma Qc_100_ne_0 : Qc_of_Z 100 ≠ Q2Qc 0.
Proof. intros H. by apply Qc_eq_Qeq in H. Qed.

Lemma round2_scaled (q : Qc) :
  (Frame.round2 q * Qc_of_Z 100 = Qc_of_Z (Frame.rint (q * Qc_of_Z 100)))%Qc.
Proof. unfold Frame.round2. field. apply Qc_100_ne_0. Qed.



Lemma round2_idemp (q : Qc) :
  Frame.round2 (Frame.round2 q) = Frame.round2 q.
Proof.
  unfold Frame.round2 at 1. rewrite round2_scaled, rint_Z. reflexivity.
Qed.

Lemma round2_cents (z : Z) :
  Frame.round2 (Qc_of_Z z / Qc_of_Z 100) = (Qc_of_Z z / Qc_of_Z 100)%Qc.
Proof.
  unfold Frame.round2.
  replace (Qc_of_Z z / Qc_of_Z 100 * Qc_of_Z 100)%Qc with (Qc_of_Z z)
    by (field; apply Qc_100_ne_0).
  by rewrite rint_Z.
Qed.

(** ** The tier and promotion tables *)


Lemma byPromotion_rows d :
  byPromotion d =
  (λ k, let g := filter (λ r, featured (raw r) = k) d in
        {| promo_flag := k;
           promo_units :=
             Frame.round2 (Frame.mean ((Qc_of_Z ∘ units ∘ raw) <$> g));
           promo_revenue := Frame.round2 (Frame.mean (revenue <$> g));
           promo_profit := Frame.round2 (Frame.mean (profit <$> g)) |})
    <$> Frame.group_keys Z.leb (λ r, Some (featured (raw r))) d.
Proof.
  unfold byPromotion, Frame.groupby. rewrite <- list_fmap_compose.
  apply list_fmap_ext. intros _ k _. simpl.
  by rewrite (list_filter_iff (λ r, Some (featured (raw r)) = Some k)
                (λ r, featured (raw r) = k)) by (intros r; split; congruence).
Qed.







(** ** What the report says *)

Lemma loc_present {R V : Type} (label : R → Z) (col : R → V) k rows :
  k ∈ label <$> rows →
  ∃ r, r ∈ rows ∧ label r = k ∧ Frame.loc label col k rows = Ok (col r).
Proof.
  intros (r0 & Hk & Hr0)%list_elem_of_fmap. unfold Frame.loc.
  destruct (list_find (λ r, label r = k) rows) as [[i r]|] eqn:Hf.
  - apply list_find_Some in Hf as (Hi & Hr & _).
    exists r. split; [by eapply list_elem_of_lookup_2|done].
  - apply list_find_None in Hf. eapply Forall_forall in Hf; [|exact Hr0].
    by destruct Hf.
Qed.

Lemma loc_byPromotion_profit (d : list CleanRecord) (k : Z) :
  (∃ r, r ∈ d ∧ featured (raw r) = k) →
  Frame.loc promo_flag promo_profit k (byPromotion d) =
  Ok (Frame.round2
        (Frame.mean (profit <$> filter (λ r, featured (raw r) = k) d))).
Proof.
  intros Hk.
  destruct (loc_present promo_flag promo_profit k (byPromotion d))
    as (row & Hrow & Hflag & ->).
  { rewrite byPromotion_flags, elem_of_group_keys.
    destruct Hk as (r & Hr & <-). by exists r. }
  rewrite byPromotion_rows in Hrow.
  apply list_elem_of_fmap in Hrow as (k' & -> & _). simpl in *. by subst k'.
Qed.



(** [idxmax_from best s] names the first maximal value of [best :: s]. *)
Lemma idxmax_from_spec {I : Type} (best : I * Qc) (s : list (I * Qc)) :
  ∃ (i : nat) (v : Qc),
    (best :: s) !! i = Some (Frame.idxmax_from best s, v) ∧
    (∀ p, p ∈ best :: s → (p.2 ≤ v)%Qc) ∧
    (∀ j p, (j < i)%nat → (best :: s) !! j = Some p → (p.2 < v)%Qc).
Proof.
  revert best. induction s as [|p s IH]; intros best.
  - exists 0%nat, best.2. simpl. split; [by destruct best|].
    split; [|intros j q Hj; lia].
    intros q ->%list_elem_of_singleton. apply Qcle_refl.
  - simpl. destruct (decide (best.2 < p.2)%Qc) as [Hlt|Hge].
    + destruct (IH p) as (i & v & Hi & Hmax & Hfirst).
      exists (S i), v. split; [exact Hi|].
      assert (p.2 ≤ v)%Qc as Hpv by (apply Hmax; left).
      split.
      * intros q [->|Hq]%elem_of_cons; [|by apply Hmax].
        apply Qclt_le_weak. by eapply Qclt_le_trans.
      * intros [|j] q Hj Hq; simpl in Hq.
        -- injection Hq as <-. by eapply Qclt_le_trans.
        -- apply (Hfirst j q); [lia|exact Hq].
    + apply Qcnot_lt_le in Hge.
      destruct (IH best) as (i & v & Hi & Hmax & Hfirst).
      assert (best.2 ≤ v)%Qc as Hbv by (apply Hmax; left).
      destruct i as [|i].
      * exists 0%nat, v. split; [exact Hi|]. split; [|intros j q Hj; lia].
        intros q [->|[->|Hq]%elem_of_cons]%elem_of_cons.
        -- exact Hbv.
        -- by eapply Qcle_trans.
        -- apply Hmax. by right.
      * exists (S (S i)), v. split; [exact Hi|]. split.
        -- intros q [->|[->|Hq]%elem_of_cons]%elem_of_cons.
           ++ exact Hbv.
           ++ by eapply Qcle_trans.
           ++ apply Hmax. by right.
        -- assert (best.2 < v)%Qc as Hbest
             by (apply (Hfirst 0%nat best); [lia|reflexivity]).
           intros [|[|j]] q Hj Hq; simpl in Hq.
           ++ by injection Hq as <-.
           ++ injection Hq as <-. by eapply Qcle_lt_trans.
           ++ apply (Hfirst (S j) q); [lia|exact Hq].
Qed.

(** X8. The segment the report calls most valuable is a row of the tier
    table whose (rounded) revenue no other row exceeds, the first such row
    in table order when several tie; the lookup raises [ValueError] exactly
    when the table is empty. *)
Theorem X8_best_segment (s : Summary) :
  (segment_analysis s = [] ↔ best_segment s = Raise ValueError) ∧
  (∀ t, best_segment s = Ok t →
     ∃ (i : nat) (row : SegmentRow),
       segment_analysis s !! i = Some row ∧ segment_label row = t ∧
       (∀ row', row' ∈ segment_analysis s →
          (segment_revenue row' ≤ segment_revenue row)%Qc) ∧
       (∀ j row', (j < i)%nat → segment_analysis s !! j = Some row' →
          (segment_revenue row' < segment_revenue row)%Qc)).
Proof.
  unfold best_segment. split.
  - destruct (segment_analysis s); simpl; split; done.
  - intros t Ht.
    destruct (segment_analysis s) as [|row0 rows] eqn:Hrows;
      [discriminate Ht|].
    rewrite fmap_cons in Ht. simpl in Ht. injection Ht as <-.
    destruct (idxmax_from_spec (segment_label row0, segment_revenue row0)
                ((λ r, (segment_label r, segment_revenue r)) <$> rows))
      as (i & v & Hi & Hmax & Hfirst).
    rewrite <- (fmap_cons (λ r, (segment_label r, segment_revenue r))) in *.
    rewrite list_lookup_fmap in Hi.
    destruct ((row0 :: rows) !! i) as [row|] eqn:Hrow; [|discriminate Hi].
    simpl in Hi. injection Hi as Hlabel <-.
    exists i, row. split; [exact Hrow|]. split; [exact Hlabel|]. split.
    + intros row' Hrow'.
      apply (Hmax (segment_label row', segment_revenue row')).
      by apply (list_elem_of_fmap_2 (λ r, (segment_label r, segment_revenue r))).
    + intros j row' Hj Hrow'.
      apply (Hfirst j (segment_label row', segment_revenue row') Hj).
      by rewrite list_lookup_fmap, Hrow'.
Qed.

(** ** Effects of the Reporter *)

Lemma report_text_best `{Renderer} d s t pos :
  best_segment s = Ok t → promo_positive s = Ok pos →
  ∃ report, report_text d s = Ok report ∧
    occurs ("   - Most valuable customer segment: " +:+ tier_name t) report
      = true ∧
    occurs ("   - Focus on " +:+ tier_name t
              +:+ " segment for immediate revenue") report = true.
Proof.
  intros Hb Hp. unfold report_text. rewrite Hb, Hp.
  cbn [mbind result_bind].
  eexists. split; [reflexivity|]. split.
  - apply (occurs_concat_drop _ 31). destruct t; vm_compute; reflexivity.
  - apply (occurs_concat_drop _ 42). destruct t; vm_compute; reflexivity.
Qed.

(** X9. Whenever a report text is produced, its insight line and its
    recommendation line name one and the same segment: the one
    [best_segment] picks from the summary. *)
Theorem X9_report_names_best_segment `{Renderer} (d : list CleanRecord)
    (s : Summary) (report : string) :
  report_text d s = Ok report →
  ∃ t, best_segment s = Ok t ∧
    occurs ("   - Most valuable customer segment: " +:+ tier_name t) report
      = true ∧
    occurs ("   - Focus on " +:+ tier_name t
              +:+ " segment for immediate revenue") report = true.
Proof.
  intros Hr.
  destruct (best_segment s) as [t|e] eqn:Hb;
    [|unfold report_text in Hr; rewrite Hb in Hr; discriminate Hr].
  destruct (promo_positive s) as [pos|e] eqn:Hp;
    [|unfold report_text in Hr; rewrite Hb, Hp in Hr; discriminate Hr].
  destruct (report_text_best d s t pos Hb Hp) as (report' & Hr' & Hlines).
  rewrite Hr in Hr'. injection Hr' as <-. by exists t.
Qed.

Lemma X9_report_names_best_segment_witness :
  ∃ report,
    @report_text plain_renderer example_cleaned example_summary = Ok report ∧
    occurs "   - Most valuable customer segment: High" report = true ∧
    occurs "   - Focus on High segment for immediate revenue" report = true.
Proof.
  destruct (@report_text plain_renderer example_cleaned example_summary)
    as [report|e] eqn:Hr; [|vm_compute in Hr; discriminate Hr].
  exists report. split; [reflexivity|].
  destruct (@X9_report_names_best_segment plain_renderer example_cleaned
              example_summary report Hr) as (t & Ht & Hlines).
  vm_compute in Ht. injection Ht as <-. exact Hlines.
Defined.

Lemma generate_report_cases `{Renderer} self fs :
  generate_report self fs =
  match report_text (data self) (ensure_summary self).1 with
  | Raise e => (Raise e, fs)
  | Ok report =>
      if decide ("reports" ∈ dirs fs)
      then (Ok (report, (ensure_summary self).2),
            {| dirs := dirs fs;
               files := <[report_path := report]> (files fs) |})
      else (Raise FileNotFoundError, fs)
  end.
Proof.
  unfold generate_report.
  pose proof (ensure_summary_data self) as Hd.
  destruct (ensure_summary self) as [s self']. simpl in *.
  unfold io_bind, io_lift. rewrite Hd.
  destruct (report_text (data self) s) as [report|e]; [|reflexivity].
  unfold write_file. by destruct (decide ("reports" ∈ dirs fs)).
Qed.

Lemma ensure_summary_summary self :
  summary (ensure_summary self).2 = Some (ensure_summary self).1.
Proof. unfold ensure_summary. by destruct (summary self) eqn:Hs. Qed.


Lemma ensure_summary_None self :
  summary self = None → ensure_summary self = analyze_sales_trends self.
Proof. unfold ensure_summary. by intros ->. Qed.

Lemma ensure_summary_analyzed self :
  ensure_summary (analyze_sales_trends self).2 = analyze_sales_trends self.
Proof. reflexivity. Qed.


(** X10. [generate_report] never creates the output directory: when the
    text can be built but [reports] does not exist it raises
    [FileNotFoundError] and writes nothing; when the directory exists it
    returns the text and writes it to the report path, touching no other
    path and no directory, and it leaves the records of the instance as they
    are. When the text cannot be built, it raises that error and writes
    nothing. *)
Theorem X10_generate_report_outcome `{Renderer} (self : SalesOptimizer)
    (fs : FileSystem) :
  (∀ report, report_text (data self) (ensure_summary self).1 = Ok report →
     ("reports" ∉ dirs fs →
      generate_report self fs = (Raise FileNotFoundError, fs)) ∧
     ("reports" ∈ dirs fs →
      ∃ self' fs',
        generate_report self fs = (Ok (report, self'), fs') ∧
        data self' = data self ∧
        summary self' = Some (ensure_summary self).1 ∧
        dirs fs' = dirs fs ∧
        files fs' !! report_path = Some report ∧
        ∀ p, p ≠ report_path → files fs' !! p = files fs !! p)) ∧
  (∀ e, report_text (data self) (ensure_summary self).1 = Raise e →
     generate_report self fs = (Raise e, fs)).
Proof.
  rewrite generate_report_cases. split.
  - intros report ->. split; intros Hdir.
    + by rewrite decide_False.
    + rewrite decide_True by assumption.
      eexists _, _. split; [reflexivity|].
      split; [apply ensure_summary_data|].
      split; [apply ensure_summary_summary|].
      split; [reflexivity|]. cbn [files].
      split; [apply lookup_insert_eq|].
      intros p Hp. by apply lookup_insert_ne.
  - by intros e ->.
Qed.

Lemma X10_generate_report_outcome_witness :
  @generate_report plain_renderer
    {| data := example_cleaned; summary := Some example_summary |} empty_fs
  = (Raise FileNotFoundError, empty_fs).
Proof.
  pose proof (@X10_generate_report_outcome plain_renderer
                {| data := example_cleaned; summary := Some example_summary |}
                empty_fs) as [Hok _].
  cbn [ensure_summary summary data fst] in Hok.
  destruct (@report_text plain_renderer example_cleaned example_summary)
    as [report|e] eqn:Hr; [|vm_compute in Hr; discriminate Hr].
  apply (Hok report eq_refl). apply not_elem_of_empty.
Defined.


(** X12. Calling [analyze_sales_trends] before the Reporter is optional: on
    an instance without summary, [generate_visualizations] and
    [generate_report] compute it themselves and end exactly as they do
    after an explicit call. *)
Theorem X12_summary_on_demand `{Renderer} (self : SalesOptimizer)
    (fs : FileSystem) :
  summary self = None →
  generate_visualizations self fs
    = generate_visualizations (analyze_sales_trends self).2 fs ∧
  generate_report self fs = generate_report (analyze_sales_trends self).2 fs.
Proof.
  intros Hnone. split.
  - rewrite !generate_visualizations_spec, ensure_summary_analyzed.
    by rewrite (ensure_summary_None self Hnone).
  - rewrite !generate_report_cases, ensure_summary_analyzed.
    by rewrite (ensure_summary_None self Hnone).
Qed.

Lemma X12_summary_on_demand_witness :
  @generate_report plain_renderer
    {| data := example_cleaned; summary := None |} empty_fs
  = @generate_report plain_renderer
      (analyze_sales_trends {| data := example_cleaned; summary := None |}).2
      empty_fs.
Proof.
  apply (@X12_summary_on_demand plain_renderer
           {| data := example_cleaned; summary := None |} empty_fs).
  reflexivity.
Defined.

(** ** A whole run, case by case *)

Lemma clean_data_has_segment (rows : list RawRecord)
    (cleaned : list CleanRecord) :
  clean_data rows = Ok cleaned → byTier cleaned ≠ [].
Proof.
  intros Hc.
  destruct (clean_data_tiers _ _ Hc)
    as (b0 & b1 & b2 & b3 & _ & _ & _ & Hin0 & _ & _ & Htier & Hrule).
  apply elem_of_location_totals in Hin0 as (r0 & Hr0 & _).
  destruct (clean_data_elem _ _ r0 Hc Hr0) as (r & Hr & _).
  pose proof (Hrule r Hr) as Hseg. rewrite Htier in Hseg.
  intros Hnil.
  assert (Frame.group_keys tier_leb customer_segment cleaned = []) as Hkeys
    by (by rewrite <- byTier_labels, Hnil).
  eapply elem_of_nil. rewrite <- Hkeys. apply elem_of_group_keys.
  exists r. split; [exact Hr|exact Hseg].
Qed.

Lemma init_Csv (rows : list RawRecord) (cleaned : list CleanRecord) :
  clean_data rows = Ok cleaned →
  init (Csv rows) = Ok {| data := cleaned; summary := None |}.
Proof. intros Hc. unfold init. simpl. by rewrite Hc. Qed.

(** X13. The outcome of a run on parsed rows. If tier computation fails the
    run raises [ValueError] and writes nothing. Otherwise the charts are
    saved, and the run completes, returning the report it has written, when
    the cleaned records include both a promoted and a non-promoted one; if
    either kind is absent it raises [KeyError] with the charts on disk and
    no report. No other error can come out of a run on parsed rows. *)
Theorem X13_run_outcome `{Renderer} (rows : list RawRecord) (fs : FileSystem) :
  match clean_data rows with
  | Raise e => e = ValueError ∧ main (Csv rows) fs = (Raise ValueError, fs)
  | Ok cleaned =>
      let s := {| weekly_sales := byWeek cleaned;
                  segment_analysis := byTier cleaned;
                  promo_analysis := byPromotion cleaned |} in
      if decide (Exists (λ r, featured (raw r) = 1) cleaned ∧
                 Exists (λ r, featured (raw r) = 0) cleaned)
      then ∃ report,
             report_text cleaned s = Ok report ∧
             main (Csv rows) fs =
             (Ok report,
              {| dirs := {["reports"]} ∪ dirs fs;
                 files := <[report_path := report]>
                            (files (charts_written s fs)) |})
      else main (Csv rows) fs = (Raise KeyError, charts_written s fs)
  end.
Proof.
  destruct (clean_data rows) as [cleaned|e] eqn:Hc.
  - cbv zeta.
    set (s := {| weekly_sales := byWeek cleaned;
                 segment_analysis := byTier cleaned;
                 promo_analysis := byPromotion cleaned |}).
    pose proof (main_after_init (Csv rows) _ fs (init_Csv _ _ Hc)) as Hmain.
    change (analyze_sales_trends {| data := cleaned; summary := None |}).1
      with s in Hmain.
    change (data {| data := cleaned; summary := None |})
      with cleaned in Hmain.
    destruct (best_segment_Ok s (clean_data_has_segment _ _ Hc)) as [t Ht].
    destruct (decide _) as [[H1 H0]|Hmiss].
    + apply Exists_exists in H1 as (r1 & Hr1 & Hf1).
      apply Exists_exists in H0 as (r0 & Hr0 & Hf0).
      assert (∃ b, promo_positive s = Ok b) as [b Hb].
      { unfold promo_positive, s. cbn [promo_analysis].
        rewrite (loc_byPromotion_profit cleaned 1) by (by exists r1).
        rewrite (loc_byPromotion_profit cleaned 0) by (by exists r0).
        cbn [mbind result_bind]. eauto. }
      destruct (report_text_best cleaned s t b Ht Hb) as (report & Hr & _).
      exists report. split; [exact Hr|]. by rewrite Hmain, Hr.
    + assert (promo_positive s = Raise KeyError) as Hp.
      { apply promo_positive_missing. unfold s. cbn [promo_analysis].
        destruct (decide (Exists (λ r, featured (raw r) = 1) cleaned))
          as [H1|H1].
        - right. apply byPromotion_flag_missing.
          apply not_Exists_Forall; [apply _|]. tauto.
        - left. apply byPromotion_flag_missing.
          by apply not_Exists_Forall; [apply _|]. }
      rewrite Hmain. unfold report_text. by rewrite Ht, Hp.
  - assert (e = ValueError) as ->.
    { unfold clean_data in Hc.
      destruct (store_segments (Frame.drop_duplicates rows)) as [segs|e']
        eqn:Hs; [discriminate Hc|].
      simpl in Hc. injection Hc as <-.
      unfold store_segments in Hs. by apply qcut_Raise in Hs as [-> _]. }
    split; [reflexivity|]. by apply main_clean_Raise.
Qed.

Lemma X13_run_outcome_witness :
  (@main plain_renderer (Csv example_rows_unpromoted) empty_fs).1
  = Raise KeyError.
Proof.
  pose proof (@X13_run_outcome plain_renderer example_rows_unpromoted
                empty_fs) as Hrun.
  rewrite example_clean_data_unpromoted in Hrun. cbv zeta in Hrun.
  destruct (decide _) as [[H1 _]|_] in Hrun.
  - apply Exists_exists in H1 as (r & Hr & Hf).
    unfold example_cleaned_unpromoted in Hr.
    apply list_elem_of_fmap in Hr as (r0 & -> & Hr0).
    unfold example_rows_unpromoted in Hr0.
    repeat (apply elem_of_cons in Hr0 as [->|Hr0]; [discriminate Hf|]).
    by apply elem_of_nil in Hr0.
  - by rewrite Hrun.
Defined.

Lemma sublist_full {A : Type} (l1 l2 : list A) :
  sublist l1 l2 → (length l2 ≤ length l1)%nat → l1 = l2.
Proof.
  induction 1 as [|x l1 l2 Hs IH|x l1 l2 Hs IH]; intros Hlen.
  - reflexivity.
  - f_equal. apply IH. simpl in Hlen. lia.
  - apply sublist_length in Hs. simpl in Hlen. lia.
Qed.

(** X14. Cleaning never adds rows and never empties the data: a successful
    clean keeps at least one record and at most as many as were loaded, and
    it keeps them all exactly when no two loaded rows are identical. *)
Theorem X14_row_count (rows : list RawRecord) (cleaned : list CleanRecord) :
  clean_data rows = Ok cleaned →
  (0 < length cleaned ≤ length rows)%nat ∧
  (length cleaned = length rows ↔ NoDup rows).
Proof.
  intros Hc.
  assert (length cleaned = length (Frame.drop_duplicates rows)) as Hlen
    by (by rewrite <- (clean_data_raw _ _ Hc), length_fmap).
  pose proof (drop_duplicates_from_sublist [] rows) as Hsub.
  fold (Frame.drop_duplicates rows) in Hsub.
  split; [split|].
  - pose proof (clean_data_has_segment _ _ Hc) as Hne.
    destruct cleaned; [by destruct Hne|simpl; lia].
  - rewrite Hlen. by apply sublist_length.
  - rewrite Hlen. split.
    + intros Heq. rewrite <- (sublist_full _ _ Hsub) by lia.
      apply NoDup_drop_duplicates.
    + intros Hnd. by rewrite drop_duplicates_id.
Qed.

Lemma X14_row_count_witness :
  (0 < length example_cleaned ≤ length example_rows)%nat ∧
  ¬ NoDup example_rows.
Proof.
  destruct (X14_row_count example_rows example_cleaned example_clean_data)
    as [Hlen Hiff].
  split; [exact Hlen|]. intros Hnd. apply Hiff in Hnd. discriminate Hnd.
Defined.

(** ** Location totals and margins *)



